(** * Stock price ETL: a shallow embedding of the transform stage

    The development follows [yahoo_stock_price_etl]: the [BaseETL] helpers
    ([_get_path], [_save_to_csv]), [StockDataTransformer] and
    [StockDataLoader].  The pandas operations the code calls are modelled in
    module [pd], next to the data they work on.

    Modelling conventions.
    - A float64 cell is an [option Q]: [None] is NaN (a missing value), and
      [Some q] is a finite value.  Arithmetic is exact rational arithmetic;
      rounding, signed zeros and infinities are not represented.  Equations
      between computed values are stated with [Qeq] ([==]).
    - A Date is an integer time stamp ([Z]); a Ticker is a [string].
    - A DataFrame is column-major: its (Date, Ticker) MultiIndex and an
      ordered list of labelled numeric columns.
    - Python exceptions are values of [exn]; a method that can raise returns
      a [result].
    - The file system is a finite map from paths to parsed CSV tables. *)

From Stdlib Require Import QArith DecimalString Sorted.
From stdpp Require Import base option list strings gmap.

Open Scope string_scope.
Open Scope list_scope.

(** ** Exceptions and the error monad *)

Inductive exn : Type :=
  | KeyError (key : string)
  | ValueError (msg : string)
  | FileNotFoundError (path : string)
  | EmptyDataError.

Inductive result (A : Type) : Type :=
  | Ok (a : A)
  | Raise (e : exn).
Arguments Ok {A} a.
Arguments Raise {A} e.

#[global] Instance result_ret : MRet result := fun A a => Ok a.
#[global] Instance result_bind : MBind result := fun A B f m =>
  match m with
  | Ok a => f a
  | Raise e => Raise e
  end.

(** [for x in l: body] with early exit on an exception. *)
Fixpoint for_in {A S : Type} (l : list A) (body : S -> A -> result S) (s : S)
  : result S :=
  match l with
  | [] => Ok s
  | x :: l' => s' ← body s x; for_in l' body s'
  end.

(** ** Generic list helpers *)

(** Lookup in an association list (first match). *)
Fixpoint assoc {K V : Type} `{EqDecision K} (k : K) (l : list (K * V)) : option V :=
  match l with
  | [] => None
  | (k', v) :: l' => if decide (k' = k) then Some v else assoc k l'
  end.

(** Replace the value of the first entry labelled [k], or append a new entry. *)
Fixpoint assoc_set {K V : Type} `{EqDecision K} (k : K) (v : V) (l : list (K * V))
  : list (K * V) :=
  match l with
  | [] => [(k, v)]
  | (k', v') :: l' =>
      if decide (k' = k) then (k, v) :: l' else (k', v') :: assoc_set k v l'
  end.

(** Distinct elements in order of first appearance. *)
Fixpoint unique {A : Type} `{EqDecision A} (l : list A) : list A :=
  match l with
  | [] => []
  | x :: l' => x :: filter (fun y => y ≠ x) (unique l')
  end.

(** Stable insertion sort for a boolean order. *)
Fixpoint insert_sorted {A : Type} (leb : A -> A -> bool) (x : A) (l : list A) : list A :=
  match l with
  | [] => [x]
  | y :: l' => if leb x y then x :: y :: l' else y :: insert_sorted leb x l'
  end.

Definition isort {A : Type} (leb : A -> A -> bool) (l : list A) : list A :=
  foldr (insert_sorted leb) [] l.

(** [l[s:e]] *)
Definition slice {A : Type} (s e : nat) (l : list A) : list A :=
  take (e - s) (drop s l).

(** ** Numbers *)

Abbreviation cell := (option Q).
Abbreviation NaN := (@None Q).

Definition Qltb (a b : Q) : bool :=
  match (a ?= b)%Q with Lt => true | _ => false end.

Definition Qsum (l : list Q) : Q := foldr Qplus 0%Q l.

Definition Qsign (q : Q) : Z := Z.sgn (Qnum q).

(** A value of an int64 column stored in a frame. *)
Definition int_cell (z : Z) : cell := Some (inject_Z z).

(** ** The pandas operations the code calls *)

Module pd.

(** Row label of the panel: (Date, Ticker). *)
Definition label : Type := (Z * string)%type.

Record DataFrame : Type := {
  index : list label;
  columns : list (string * list cell)
}.

(** A Series carrying its own labels, as returned by a grouped window
    aggregation. *)
Definition Series : Type := list (label * cell).

(** A parsed CSV file (the result of [read_csv(..., index_col=None,
    header=0)], or what [to_csv] wrote): the Date column and the Ticker
    column when the file has them, and its numeric columns in header
    order. *)
Record CsvTable : Type := {
  csv_Date : option (list Z);
  csv_Ticker : option (list string);
  csv_columns : list (string * list cell)
}.

Definition column_names (df : DataFrame) : list string := (columns df).*1.

(** [df[col]] *)
Definition getitem (df : DataFrame) (col : string) : result (list cell) :=
  match assoc col (columns df) with
  | Some v => Ok v
  | None => Raise (KeyError col)
  end.

(** [df[col] = values], for values already aligned with the frame. *)
Definition setitem (df : DataFrame) (col : string) (v : list cell) : DataFrame :=
  {| index := index df; columns := assoc_set col v (columns df) |}.

(** [Series.ffill()]: carry the last valid value forward. *)
Fixpoint ffill_from (last : cell) (l : list cell) : list cell :=
  match l with
  | [] => []
  | x :: l' =>
      let v := match x with Some _ => x | None => last end in
      v :: ffill_from v l'
  end.

Definition ffill (l : list cell) : list cell := ffill_from NaN l.

(** [Series.bfill()]: carry the next valid value backward. *)
Fixpoint bfill (l : list cell) : list cell :=
  match l with
  | [] => []
  | x :: l' =>
      let r := bfill l' in
      match x with
      | Some _ => x :: r
      | None => hd NaN r :: r
      end
  end.

(** [notna]: the value is not missing. *)
Definition notna (c : cell) : bool :=
  match c with
  | Some _ => true
  | None => false
  end.

(** Element-wise [a > b] and [a < b]: a comparison with NaN is False. *)
Definition gt (a b : cell) : bool :=
  match a, b with
  | Some x, Some y => Qltb y x
  | _, _ => false
  end.

Definition lt (a b : cell) : bool :=
  match a, b with
  | Some x, Some y => Qltb x y
  | _, _ => false
  end.

(** [.astype(int)] on a boolean. *)
Definition astype_int (b : bool) : Z := Z.b2z b.

(** *** Window aggregations on the values of one group *)

Definition observations (w : list cell) : list Q := omap id w.

(** Bounds of the fixed trailing window that ends at row [i]. *)
Definition window_bounds (window i : nat) : nat * nat := (i + 1 - window, i + 1).

(** [rolling(window, min_periods).mean()] on one block of values: the mean
    of the valid observations of the window, when there are at least
    [min_periods] (and at least one) of them. *)
Definition roll_mean (window min_periods : nat) (vals : list cell) : list cell :=
  (fun i =>
     let '(s, e) := window_bounds window i in
     let obs := observations (slice s e vals) in
     let nobs := length obs in
     if decide (min_periods <= nobs /\ 0 < nobs)
     then Some (Qsum obs / inject_Z (Z.of_nat nobs))%Q
     else NaN) <$> seq 0 (length vals).

(** State of the exponentially weighted mean loop. *)
Record ewm_state : Type := {
  weighted : cell;
  old_wt : Q;
  nobs : nat
}.

(** One iteration of the loop ([adjust] and [ignore_na] as parameters). *)
Definition ewm_step (alpha : Q) (adjust ignore_na : bool) (st : ewm_state) (cur : cell)
  : ewm_state :=
  let old_wt_factor := (1 - alpha)%Q in
  let new_wt := if adjust then 1%Q else alpha in
  let is_observation := notna cur in
  let n := (nobs st + if is_observation then 1 else 0)%nat in
  match weighted st with
  | Some w =>
      if is_observation || negb ignore_na then
        let ow := (old_wt st * old_wt_factor)%Q in
        match cur with
        | Some c =>
            let w' := if Qeq_bool w c then w
                      else ((ow * w + new_wt * c) / (ow + new_wt))%Q in
            {| weighted := Some w';
               old_wt := if adjust then (ow + new_wt)%Q else 1%Q;
               nobs := n |}
        | None => {| weighted := Some w; old_wt := ow; nobs := n |}
        end
      else {| weighted := Some w; old_wt := old_wt st; nobs := n |}
  | None =>
      {| weighted := cur; old_wt := old_wt st; nobs := n |}
  end.

Definition ewm_output (minp : nat) (st : ewm_state) : cell :=
  if decide (minp <= nobs st) then weighted st else NaN.

Fixpoint ewm_loop (alpha : Q) (adjust ignore_na : bool) (minp : nat)
    (st : ewm_state) (vals : list cell) : list cell :=
  match vals with
  | [] => []
  | cur :: vals' =>
      let st' := ewm_step alpha adjust ignore_na st cur in
      ewm_output minp st' :: ewm_loop alpha adjust ignore_na minp st' vals'
  end.

(** The aggregation behind [ewm(...).mean()] on one block of values. *)
Definition ewm (com : Q) (adjust ignore_na : bool) (minp : nat) (vals : list cell)
  : list cell :=
  match vals with
  | [] => []
  | first :: rest =>
      let alpha := (1 / (1 + com))%Q in
      let st := {| weighted := first; old_wt := 1%Q;
                   nobs := if notna first then 1 else 0 |} in
      ewm_output minp st :: ewm_loop alpha adjust ignore_na minp st rest
  end.

(** Centre of mass of a span: [com = (span - 1) / 2]. *)
Definition com_of_span (span : nat) : Q := ((inject_Z (Z.of_nat span) - 1) / 2)%Q.

(** [pct_change()] on one block of values: the values are forward filled,
    then each is divided by its predecessor, minus one.  A zero
    predecessor gives no finite value. *)
Definition pct (cur prev : cell) : cell :=
  match cur, prev with
  | Some c, Some p => if Qeq_bool p 0 then NaN else Some (c / p - 1)%Q
  | _, _ => NaN
  end.

Definition pct_change (vals : list cell) : list cell :=
  let filled := ffill vals in
  zip_with pct filled (NaN :: filled).

(** *** Grouping by the Ticker level *)

Definition ticker_is (t : string) (row : label * cell) : Prop := row.1.2 = t.
#[global] Instance ticker_is_dec t row : Decision (ticker_is t row).
Proof. unfold ticker_is. apply _. Defined.

(** Group keys: the distinct tickers, sorted. *)
Definition group_keys (idx : list label) : list string :=
  isort String.leb (unique (idx.*2)).

(** Rows of one group, in the order they have in the frame. *)
Definition group_rows (t : string) (idx : list label) (vals : list cell)
  : list (label * cell) :=
  filter (ticker_is t) (zip idx vals).

(** Number of rows of the same ticker above row [i]. *)
Definition rank_in_group (idx : list label) (i : nat) (t : string) : nat :=
  length (filter (fun k : label => k.2 = t) (take i idx)).

(** [groupby(level="Ticker")[col].<window>().<agg>().reset_index(level=0,
    drop=True)]: the groups come in key order, each keeps its rows in frame
    order and is aggregated on its own; the result is labelled by the
    original (Date, Ticker) labels. *)
Definition groupby_window (agg : list cell -> list cell) (idx : list label)
    (vals : list cell) : Series :=
  t ← group_keys idx;
  let g := group_rows t idx vals in zip (g.*1) (agg (g.*2)).

(** [groupby("Ticker")[col].<transform>()]: a group-wise transformation
    whose result has the rows of the frame, in frame order. *)
Definition groupby_transform (f : list cell -> list cell) (idx : list label)
    (vals : list cell) : list cell :=
  imap (fun i (k : label) =>
          default NaN (f ((group_rows k.2 idx vals).*2) !! rank_in_group idx i k.2))
       idx.

(** Alignment of a labelled Series with the frame index on [df[col] = s]:
    equal indexes need no reindexing; otherwise the Series is reindexed,
    which requires its labels to be unique. *)
Definition reindex_for_setitem (value : Series) (idx : list label)
  : result (list cell) :=
  if decide (value.*1 = idx) then Ok (value.*2)
  else if decide (NoDup (value.*1))
       then Ok ((fun k => default NaN (assoc k value)) <$> idx)
       else Raise (ValueError "cannot reindex on an axis with duplicate labels").

(** [.rolling(window=window, min_periods=min_periods)] validation. *)
Definition validate_rolling (window min_periods : nat) : result unit :=
  if decide (min_periods <= window) then Ok tt
  else Raise (ValueError "min_periods must be <= window").

(** [.ewm(span=span)] validation. *)
Definition validate_span (span : nat) : result unit :=
  if decide (1 <= span) then Ok tt
  else Raise (ValueError "span must satisfy: span >= 1").

(** *** Files *)

Definition read_csv (fs : gmap string CsvTable) (path : string) : result CsvTable :=
  match fs !! path with
  | None => Raise (FileNotFoundError path)
  | Some t =>
      match csv_Date t, csv_Ticker t, csv_columns t with
      | None, None, [] => Raise EmptyDataError
      | _, _, _ => Ok t
      end
  end.

(** [df.to_csv(path, index=False)]: the columns are written, the index is
    not. *)
Definition to_csv_no_index (fs : gmap string CsvTable) (path : string) (df : DataFrame)
  : gmap string CsvTable :=
  <[path := {| csv_Date := None; csv_Ticker := None; csv_columns := columns df |}]> fs.

(** A per-ticker frame after [df['Ticker'] = ticker]. *)
Record Tagged : Type := {
  tg_Date : list Z;
  tg_Ticker : string;
  tg_columns : list (string * list cell)
}.

Definition tg_nrows (f : Tagged) : nat := length (tg_Date f).

(** [pd.concat(dfs, ignore_index=True)] followed by
    [set_index(['Date', 'Ticker'])]: rows are stacked in list order, the
    columns are the union of the frames' columns in order of first
    appearance, a column missing from a frame is NaN on its rows; Date and
    Ticker become the index and leave the columns. *)
Definition concat_set_index (dfs : list Tagged) : result DataFrame :=
  match dfs with
  | [] => Raise (ValueError "No objects to concatenate")
  | _ =>
      let names :=
        filter (fun c => c ≠ "Date" /\ c ≠ "Ticker")
               (unique (f ← dfs; (tg_columns f).*1)) in
      Ok {| index := f ← dfs; (fun d => (d, tg_Ticker f)) <$> tg_Date f;
            columns :=
              (fun c => (c, f ← dfs;
                            match assoc c (tg_columns f) with
                            | Some v => v
                            | None => replicate (tg_nrows f) NaN
                            end)) <$> names |}
  end.

End pd.

(** ** [BaseETL]: path building and file writing shared by the stages *)

Module BaseETL.

Record CommonConfig : Type := { file_path : string }.

(** ["{common_path}{phase_name}".format(...)] *)
Definition _get_path (common_config : CommonConfig) (phase_name : string) : string :=
  file_path common_config +:+ phase_name.

Definition endswith_sep (s : string) : bool :=
  match String.get (String.length s - 1) s with
  | Some c => Ascii.eqb c (Ascii.ascii_of_nat 47)
  | None => false
  end.

(** One step of [os.path.join] (POSIX). *)
Definition path_join (path b : string) : string :=
  if String.prefix "/" b then b
  else if bool_decide (path = EmptyString) || endswith_sep path then path +:+ b
  else path +:+ "/" +:+ b.

(** [_save_to_csv]: the frame is written with [index=False]. *)
Definition _save_to_csv (fs : gmap string pd.CsvTable) (base_path : string)
    (path : list string) (df : pd.DataFrame) (file_name : string)
  : gmap string pd.CsvTable :=
  let dir_path := foldl path_join base_path path in
  let out_file := path_join dir_path (file_name +:+ ".csv") in
  pd.to_csv_no_index fs out_file df.

End BaseETL.

(** ** [StockDataTransformer] *)

Module StockDataTransformer.
Import pd BaseETL.

(** [str(n)] for a natural number. *)
Definition str (n : nat) : string := NilEmpty.string_of_uint (Nat.to_uint n).

Definition ROLL_AVG_DAYS_COLUMN_TEMPLATE (window : nat) : string :=
  "RollAvg" +:+ str window +:+ "Days".
Definition EMA_COLUMN_TEMPLATE (span : nat) : string := "EMA" +:+ str span.
Definition TARGET_FILE_NAME : string := "transformed_data".

Record Config : Type := { roll_avg_days : nat; ema_span : nat }.

(** The attributes of a transformer object. *)
Record Self : Type := {
  common_config : CommonConfig;
  config : Config;
  tickers : list string;
  extraction_date_str : string;
  df : DataFrame
}.

Definition _read_and_concatenate (common_config : CommonConfig) (tickers : list string)
    (extraction_date_str : string) (fs : gmap string CsvTable) : result DataFrame :=
  let base_path := _get_path common_config "extract" +:+ "/" +:+ extraction_date_str in
  dfs ← for_in tickers (fun (dfs : list Tagged) ticker =>
           t ← read_csv fs (base_path +:+ "/" +:+ ticker +:+ ".csv");
           dates ← match csv_Date t with
                   | Some d => Ok d
                   | None => Raise (KeyError "Date")
                   end;
           Ok (dfs ++ [{| tg_Date := dates; tg_Ticker := ticker;
                          tg_columns := csv_columns t |}])) [];
  concat_set_index dfs.

(** [__init__] *)
Definition init (tickers : list string) (extraction_date_str : string)
    (config : Config) (common_config : CommonConfig) (fs : gmap string CsvTable)
  : result Self :=
  df ← _read_and_concatenate common_config tickers extraction_date_str fs;
  Ok {| common_config := common_config; config := config; tickers := tickers;
        extraction_date_str := extraction_date_str; df := df |}.

Definition _clean (df : DataFrame) : result DataFrame :=
  for_in (column_names df) (fun df col =>
    if decide (col ∈ ["Open"; "High"; "Low"; "Close"; "Adj Close"]) then
      v ← getitem df col; Ok (setitem df col (ffill v))
    else if decide (col = "Volume") then
      v ← getitem df col; Ok (setitem df col (bfill v))
    else Ok df) df.

Definition _add_daily_return (df : DataFrame) : result DataFrame :=
  close ← getitem df "Close";
  Ok (setitem df "DailyReturn" (groupby_transform pct_change (index df) close)).

Definition _add_rolling_average (window : nat) (df : DataFrame) : result DataFrame :=
  close ← getitem df "Close";
  _ ← validate_rolling window 1;
  v ← reindex_for_setitem
        (groupby_window (roll_mean window 1) (index df) close) (index df);
  Ok (setitem df (ROLL_AVG_DAYS_COLUMN_TEMPLATE window) v).

Definition _add_ema (span : nat) (df : DataFrame) : result DataFrame :=
  close ← getitem df "Close";
  _ ← validate_span span;
  v ← reindex_for_setitem
        (groupby_window (ewm (com_of_span span) false false 1) (index df) close)
        (index df);
  Ok (setitem df (EMA_COLUMN_TEMPLATE span) v).

(** The value of the Crossover expression on one row. *)
Definition crossover_value (roll ema : cell) : Z :=
  (astype_int (gt roll ema) - astype_int (lt roll ema))%Z.

Definition _add_time_series_analysis (roll_window ema_span : nat) (df : DataFrame)
  : result DataFrame :=
  let roll_col := ROLL_AVG_DAYS_COLUMN_TEMPLATE roll_window in
  let ema_col := EMA_COLUMN_TEMPLATE ema_span in
  roll ← getitem df roll_col;
  ema ← getitem df ema_col;
  let crossover := zip_with crossover_value roll ema in
  Ok (setitem df "Crossover" (int_cell <$> crossover)).

(** [transform]: returns the transformed frame and the file system after the
    consolidated file was written. *)
Definition transform (self : Self) (fs : gmap string CsvTable)
  : result (DataFrame * gmap string CsvTable) :=
  d ← _clean (df self);
  d ← _add_daily_return d;
  d ← _add_rolling_average (roll_avg_days (config self)) d;
  d ← _add_ema (ema_span (config self)) d;
  d ← _add_time_series_analysis (roll_avg_days (config self)) (ema_span (config self)) d;
  let fs' := _save_to_csv fs (_get_path (common_config self) "transform")
               [extraction_date_str self] d TARGET_FILE_NAME in
  Ok (d, fs').

End StockDataTransformer.

(** ** [StockDataLoader] *)

Module StockDataLoader.
Import pd BaseETL.

Definition SOURCE_FILE_NAME : string := "transformed_data".

Definition _read (common_config : CommonConfig) (extraction_date_str : string)
    (fs : gmap string CsvTable) : result CsvTable :=
  let base_path := _get_path common_config "transform" +:+ "/" +:+ extraction_date_str in
  read_csv fs (base_path +:+ "/" +:+ SOURCE_FILE_NAME +:+ ".csv").

(** [__init__] reads the table into [self.df]; [load] returns it. *)
Definition load (common_config : CommonConfig) (extraction_date_str : string)
    (fs : gmap string CsvTable) : result CsvTable :=
  _read common_config extraction_date_str fs.

End StockDataLoader.

(** * Definitions used by the statements

    Predicates in the words of the specification, the pure counterparts of
    the loops of the code, and the inputs the examples run on. *)

Import pd BaseETL StockDataTransformer.

(** ** Frames *)

(** Every column has one value per row of the index. *)
Definition aligned (df : DataFrame) : Prop :=
  Forall (fun cv : string * list cell => length cv.2 = length (index df)) (columns df).

(** The value a frame holds in column [col] on the row labelled [k]. *)
Definition value_at (d : DataFrame) (col : string) (k : label) : option cell :=
  v ← assoc col (columns d); assoc k (zip (index d) v).

(** ** Cleaning *)

Definition price_columns : list string := ["Open"; "High"; "Low"; "Close"; "Adj Close"].

(** What [_clean] does to the values of the column labelled [col]. *)
Definition clean_value (col : string) (v : list cell) : list cell :=
  if decide (col ∈ price_columns) then ffill v
  else if decide (col = "Volume") then bfill v
  else v.

(** One iteration of the loop of [_clean], on the columns. *)
Definition clean_at (col : string) (cols : list (string * list cell))
  : list (string * list cell) :=
  match assoc col cols with
  | Some v => assoc_set col (clean_value col v) cols
  | None => cols
  end.

(** The body of the loop of [_clean]. *)
Definition clean_body (df : DataFrame) (col : string) : result DataFrame :=
  if decide (col ∈ ["Open"; "High"; "Low"; "Close"; "Adj Close"]) then
    v ← getitem df col; Ok (setitem df col (ffill v))
  else if decide (col = "Volume") then
    v ← getitem df col; Ok (setitem df col (bfill v))
  else Ok df.

Definition clean_columns (names : list string) (cols : list (string * list cell))
  : list (string * list cell) :=
  foldl (fun cs c => clean_at c cs) cols names.

(** The words of the specification: [v'] is [v] with the last known value
    carried forward into the gaps; a leading gap stays missing. *)
Definition forward_filled (v v' : list cell) : Prop :=
  length v' = length v /\
  (forall i j (x : Q), j <= i -> i < length v ->
     v !! j = Some (Some x) ->
     (forall k, j < k <= i -> v !! k = Some NaN) ->
     v' !! i = Some (Some x)) /\
  (forall i, i < length v ->
     (forall k, k <= i -> v !! k = Some NaN) ->
     v' !! i = Some NaN).

(** [v'] is [v] with the next known value carried backward into the gaps; a
    trailing gap stays missing. *)
Definition backward_filled (v v' : list cell) : Prop :=
  length v' = length v /\
  (forall i j (x : Q), i <= j ->
     v !! j = Some (Some x) ->
     (forall k, i <= k < j -> v !! k = Some NaN) ->
     v' !! i = Some (Some x)) /\
  (forall i, i < length v ->
     (forall k, i <= k -> k < length v -> v !! k = Some NaN) ->
     v' !! i = Some NaN).

(** ** Groups *)

(** Labels of the rows of one ticker, in frame order. *)
Definition group_labels (t : string) (idx : list label) : list label :=
  filter (fun k : label => k.2 = t) idx.

(** The labelled result of the aggregation of one group. *)
Definition group_piece (agg : list cell -> list cell) (idx : list label)
    (vals : list cell) (t : string) : Series :=
  let g := group_rows t idx vals in zip (g.*1) (agg (g.*2)).

(** The grouped result, looked up label by label in frame order. *)
Definition realigned (agg : list cell -> list cell) (idx : list label)
    (vals : list cell) : list cell :=
  (fun k => default NaN (assoc k (groupby_window agg idx vals))) <$> idx.

(** The value of the row labelled [k] when [agg] runs over the rows [g] of
    its ticker. *)
Definition group_value (agg : list cell -> list cell) (g : list (label * cell))
    (k : label) : cell :=
  default NaN (assoc k (zip (g.*1) (agg (g.*2)))).

(** With the rows of the ticker in the order they have in the frame. *)
Definition frame_order_value (agg : list cell -> list cell) (idx : list label)
    (close : list cell) (k : label) : cell :=
  group_value agg (group_rows k.2 idx close) k.

Definition date_leb (r1 r2 : label * cell) : bool := (r1.1.1 <=? r2.1.1)%Z.

(** The words of the specification: with the rows of the ticker first sorted
    by ascending Date. *)
Definition date_order_value (agg : list cell -> list cell) (idx : list label)
    (close : list cell) (k : label) : cell :=
  group_value agg (isort date_leb (group_rows k.2 idx close)) k.

(** Every ticker's rows appear in the frame by ascending Date. *)
Definition ascending_within_groups (idx : list label) : Prop :=
  forall t : string, Sorted (fun k1 k2 : label => (k1.1 <= k2.1)%Z) (group_labels t idx).

(** ** Exponentially weighted mean *)

(** The smoothing factor of a span, in the words of the specification. *)
Definition smoothing_factor (span : nat) : Q := (2 / (inject_Z (Z.of_nat span) + 1))%Q.

(** The state built from the first value of a block. *)
Definition ewm_init (first : cell) : ewm_state :=
  {| weighted := first; old_wt := 1%Q; nobs := if notna first then 1 else 0 |}.

(** The state after the loop has consumed [vals] ([adjust=False],
    [ignore_na=False]). *)
Definition ewm_run (alpha : Q) (st : ewm_state) (vals : list cell) : ewm_state :=
  foldl (ewm_step alpha false false) st vals.

(** Before the first observation the state is the initial one; after it,
    the number of observations is positive. *)
Definition ewm_inv (st : ewm_state) : Prop :=
  match weighted st with
  | None => old_wt st = 1%Q /\ nobs st = 0
  | Some _ => 1 <= nobs st
  end.

(** The state right after an observation. *)
Definition ewm_fresh (st : ewm_state) : Prop :=
  is_Some (weighted st) /\ old_wt st = 1%Q /\ 1 <= nobs st.

(** ** Reading and writing *)

(** Path of the raw file of a ticker. *)
Definition extract_path (cc : CommonConfig) (date ticker : string) : string :=
  (_get_path cc "extract" +:+ "/" +:+ date) +:+ "/" +:+ ticker +:+ ".csv".

(** Path of the consolidated file, as [_save_to_csv] builds it. *)
Definition transform_path (cc : CommonConfig) (date : string) : string :=
  path_join (foldl path_join (_get_path cc "transform") [date])
            (TARGET_FILE_NAME +:+ ".csv").

(** One iteration of the reading loop: the tagged frame of one ticker. *)
Definition read_one (cc : CommonConfig) (date : string) (fs : gmap string CsvTable)
    (ticker : string) : result Tagged :=
  t ← read_csv fs (extract_path cc date ticker);
  dates ← match csv_Date t with
          | Some d => Ok d
          | None => Raise (KeyError "Date")
          end;
  Ok {| tg_Date := dates; tg_Ticker := ticker; tg_columns := csv_columns t |}.

Fixpoint read_all (cc : CommonConfig) (date : string) (fs : gmap string CsvTable)
    (tickers : list string) : result (list Tagged) :=
  match tickers with
  | [] => Ok []
  | ticker :: tickers' =>
      f ← read_one cc date fs ticker;
      l ← read_all cc date fs tickers';
      Ok (f :: l)
  end.

Definition stacked_index (dfs : list Tagged) : list label :=
  f ← dfs; (fun d => (d, tg_Ticker f)) <$> tg_Date f.

(** Each raw file of the partition has at most one row per Date. *)
Definition one_row_per_date (cc : CommonConfig) (date : string)
    (fs : gmap string CsvTable) (tickers : list string) : Prop :=
  Forall (fun ticker =>
            match fs !! extract_path cc date ticker with
            | Some t => match csv_Date t with
                        | Some dates => NoDup dates
                        | None => True
                        end
            | None => True
            end) tickers.

(** ** Inputs of the examples *)

(** The partition of the unit tests: two tickers, five daily bars each. *)
Definition fixture_cc : CommonConfig := {| file_path := "/tmp/" |}.
Definition fixture_config : Config := {| roll_avg_days := 2; ema_span := 2 |}.
Definition fixture_date : string := "2023_01_01".

Definition fixture_raw : CsvTable :=
  {| csv_Date := Some [1; 2; 3; 4; 5]%Z;
     csv_Ticker := None;
     csv_columns :=
       [("Open", [Some 1; Some 2; Some 3; Some 4; Some 5]%Q);
        ("High", [Some 2; Some 3; Some 4; Some 5; Some 6]%Q);
        ("Low", [Some 0; Some 1; Some 2; Some 3; Some 4]%Q);
        ("Close", [Some 1; Some 2; Some 3; Some 4; Some 5]%Q);
        ("Adj Close", [Some 1; Some 2; Some 3; Some 4; Some 5]%Q);
        ("Volume", [Some 100; Some 200; Some 300; Some 400; Some 500]%Q)] |}.

Definition fixture_fs : gmap string CsvTable :=
  <["/tmp/extract/2023_01_01/AAPL.csv" := fixture_raw]>
    (<["/tmp/extract/2023_01_01/MSFT.csv" := fixture_raw]> ∅).

Definition fixture_panel : DataFrame :=
  {| index := [(1, "AAPL"); (2, "AAPL"); (3, "AAPL"); (4, "AAPL"); (5, "AAPL");
               (1, "MSFT"); (2, "MSFT"); (3, "MSFT"); (4, "MSFT"); (5, "MSFT")]%Z;
     columns :=
       [("Open", [Some 1; Some 2; Some 3; Some 4; Some 5;
                  Some 1; Some 2; Some 3; Some 4; Some 5]%Q);
        ("High", [Some 2; Some 3; Some 4; Some 5; Some 6;
                  Some 2; Some 3; Some 4; Some 5; Some 6]%Q);
        ("Low", [Some 0; Some 1; Some 2; Some 3; Some 4;
                 Some 0; Some 1; Some 2; Some 3; Some 4]%Q);
        ("Close", [Some 1; Some 2; Some 3; Some 4; Some 5;
                   Some 1; Some 2; Some 3; Some 4; Some 5]%Q);
        ("Adj Close", [Some 1; Some 2; Some 3; Some 4; Some 5;
                       Some 1; Some 2; Some 3; Some 4; Some 5]%Q);
        ("Volume", [Some 100; Some 200; Some 300; Some 400; Some 500;
                    Some 100; Some 200; Some 300; Some 400; Some 500]%Q)] |}.

Definition fixture_self : Self :=
  {| common_config := fixture_cc; config := fixture_config;
     tickers := ["AAPL"; "MSFT"]; extraction_date_str := fixture_date;
     df := fixture_panel |}.

(** A raw file with its header and no row. *)
Definition empty_raw : CsvTable :=
  {| csv_Date := Some [];
     csv_Ticker := None;
     csv_columns := [("Open", []); ("High", []); ("Low", []); ("Close", []);
                     ("Adj Close", []); ("Volume", [])] |}.

Definition empty_fs : gmap string CsvTable :=
  <["/tmp/extract/2023_01_01/AAPL.csv" := empty_raw]>
    (<["/tmp/extract/2023_01_01/MSFT.csv" := empty_raw]> ∅).

(** A raw file that lists one trading day twice. *)
Definition repeated_day_raw : CsvTable :=
  {| csv_Date := Some [1; 1]%Z;
     csv_Ticker := None;
     csv_columns := [("Close", [Some 1; Some 2]%Q)] |}.

Definition repeated_day_fs : gmap string CsvTable :=
  <["/tmp/extract/2023_01_01/AAPL.csv" := repeated_day_raw]> ∅.

(** A frame that already has its rolling average and EMA columns. *)
Definition sample_crossover_frame : DataFrame :=
  {| index := [(1%Z, "AAPL"); (2%Z, "AAPL"); (3%Z, "AAPL")];
     columns := [("Close", [Some 1%Q; Some 2%Q; Some 3%Q]);
                 ("RollAvg2Days", [Some 1%Q; NaN; Some (5 # 2)%Q]);
                 ("EMA2", [Some 1%Q; Some (5 # 3)%Q; Some (23 # 9)%Q])] |}.

(** Two tickers whose rows are not listed in key order; a gap inside the
    Close of the second. *)
Definition two_ticker_frame : DataFrame :=
  {| index := [(1%Z, "MSFT"); (2%Z, "MSFT"); (1%Z, "AAPL"); (2%Z, "AAPL"); (3%Z, "AAPL")];
     columns := [("Close", [Some 10%Q; Some 20%Q; Some 1%Q; NaN; Some 4%Q])] |}.

(** Close is missing on the first row of the table. *)
Definition leading_gap_frame : DataFrame :=
  {| index := [(1%Z, "AAPL"); (2%Z, "AAPL")];
     columns := [("Close", [NaN; Some 2%Q])] |}.

(** Close is missing on a row between two valid rows. *)
Definition inner_gap_frame : DataFrame :=
  {| index := [(1%Z, "AAPL"); (2%Z, "AAPL"); (3%Z, "AAPL")];
     columns := [("Close", [Some 1%Q; NaN; Some 4%Q])] |}.

(** One ticker whose rows come with the later Date first. *)
Definition unsorted_frame : DataFrame :=
  {| index := [(2%Z, "AAPL"); (1%Z, "AAPL")];
     columns := [("Close", [Some 1%Q; Some 3%Q])] |}.

(** ** Further inputs of the examples *)


(** ** The frame [transform] returns *)

(** The frame after [_clean]. *)
Definition cleaned (df : DataFrame) : DataFrame :=
  {| index := index df; columns := clean_columns (column_names df) (columns df) |}.

(** Labels of the four derived columns, in the order they are added. *)
Definition derived_columns (window span : nat) : list string :=
  ["DailyReturn"; ROLL_AVG_DAYS_COLUMN_TEMPLATE window; EMA_COLUMN_TEMPLATE span;
   "Crossover"].

(** A frame with distinct labels after the four feature steps, [close]
    being its Close column. *)
Definition with_features (window span : nat) (d : DataFrame) (close : list cell)
  : DataFrame :=
  let roll := realigned (roll_mean window 1) (index d) close in
  let ema := realigned (ewm (com_of_span span) false false 1) (index d) close in
  setitem
    (setitem
       (setitem
          (setitem d "DailyReturn" (groupby_transform pct_change (index d) close))
          (ROLL_AVG_DAYS_COLUMN_TEMPLATE window) roll)
       (EMA_COLUMN_TEMPLATE span) ema)
    "Crossover" (int_cell <$> zip_with crossover_value roll ema).

(** The consolidated file of a frame. *)
Definition consolidated (d : DataFrame) : CsvTable :=
  {| csv_Date := None; csv_Ticker := None; csv_columns := columns d |}.

(** ** Partition keys and the path of the loader *)

(** A key that names one directory level: not empty and without a separator
    at either end. *)
Definition plain_key (s : string) : bool :=
  negb (bool_decide (s = EmptyString)) && negb (String.prefix "/" s)
  && negb (endswith_sep s).

(** Path of the file [StockDataLoader._read] opens. *)
Definition load_path (cc : CommonConfig) (date : string) : string :=
  (_get_path cc "transform" +:+ "/" +:+ date) +:+ "/"
  +:+ StockDataLoader.SOURCE_FILE_NAME +:+ ".csv".


(** The transformer object once its frame was replaced: the steps of
    [transform] assign to [self.df]. *)
Definition with_df (self : Self) (d : DataFrame) : Self :=
  {| common_config := common_config self; config := config self;
     tickers := tickers self; extraction_date_str := extraction_date_str self;
     df := d |}.

(** ** Raw files *)

(** The raw file of a ticker is there and has a Date column. *)
Definition readable (cc : CommonConfig) (date : string) (fs : gmap string CsvTable)
    (ticker : string) : Prop :=
  exists (t : CsvTable) (dates : list Z),
    fs !! extract_path cc date ticker = Some t /\ csv_Date t = Some dates.

(** A file without a byte. *)
Definition empty_file : CsvTable :=
  {| csv_Date := None; csv_Ticker := None; csv_columns := [] |}.

(** The partition of the unit tests with a third file that lacks the Date
    column and a fourth that is empty. *)
Definition undated_raw : CsvTable :=
  {| csv_Date := None; csv_Ticker := None;
     csv_columns := [("Close", [Some 1%Q; Some 2%Q])] |}.
Definition mixed_fs : gmap string CsvTable :=
  <["/tmp/extract/2023_01_01/IBM.csv" := undated_raw]>
    (<["/tmp/extract/2023_01_01/ORCL.csv" := empty_file]> fixture_fs).

(** * Lemmas and theorems *)

Section assoc_facts.
Context {K V : Type} `{EqDecision K}.
Implicit Types (k : K) (v : V) (l : list (K * V)).

Lemma assoc_set_eq k v l : assoc k (assoc_set k v l) = Some v.
Proof.
  induction l as [|[k' v'] l IH]; simpl.
  - by rewrite decide_True.
  - destruct (decide (k' = k)) as [->|Hne]; simpl.
    + by rewrite decide_True.
    + by rewrite decide_False.
Qed.

Lemma assoc_set_ne k k' v l : k ≠ k' -> assoc k' (assoc_set k v l) = assoc k' l.
Proof.
  intros Hne. induction l as [|[k0 v0] l IH]; simpl.
  - by rewrite decide_False.
  - destruct (decide (k0 = k)) as [->|Hk0]; simpl.
    + by rewrite !decide_False.
    + destruct (decide (k0 = k')); [done | apply IH].
Qed.

Lemma assoc_Some_elem k v l : assoc k l = Some v -> (k, v) ∈ l.
Proof.
  induction l as [|[k0 v0] l IH]; simpl; [done|].
  destruct (decide (k0 = k)) as [->|Hne].
  - intros [= ->]. left.
  - intros Hl. right. by apply IH.
Qed.

Lemma assoc_None k l : assoc k l = None <-> k ∉ l.*1.
Proof.
  induction l as [|[k0 v0] l IH]; simpl.
  - split; [intros _; apply not_elem_of_nil | done].
  - rewrite not_elem_of_cons. destruct (decide (k0 = k)) as [->|Hne].
    + split; [done | intros [? _]; done].
    + rewrite IH. split; [intros ?; split; [done|done] | intros [_ ?]; done].
Qed.

Lemma assoc_is_Some k l : k ∈ l.*1 -> is_Some (assoc k l).
Proof.
  intros Hin. destruct (assoc k l) eqn:E; [by eexists|].
  apply assoc_None in E. done.
Qed.

Lemma assoc_NoDup k v l : NoDup (l.*1) -> (k, v) ∈ l -> assoc k l = Some v.
Proof.
  induction l as [|[k0 v0] l IH]; simpl; intros Hnd Hin.
  - by apply elem_of_nil in Hin.
  - apply NoDup_cons in Hnd as [Hk0 Hnd].
    apply elem_of_cons in Hin as [[= -> ->]|Hin].
    + by rewrite decide_True.
    + destruct (decide (k0 = k)) as [->|Hne]; [|by apply IH].
      exfalso. apply Hk0. apply list_elem_of_fmap. by exists (k, v).
Qed.

Lemma assoc_set_names_in k v l : k ∈ l.*1 -> (assoc_set k v l).*1 = l.*1.
Proof.
  induction l as [|[k0 v0] l IH]; simpl; intros Hin.
  - by apply elem_of_nil in Hin.
  - destruct (decide (k0 = k)) as [->|Hne]; [done|].
    apply elem_of_cons in Hin as [->|Hin]; [done|].
    rewrite !fmap_cons, IH by done. done.
Qed.

Lemma assoc_set_names_notin k v l : k ∉ l.*1 -> (assoc_set k v l).*1 = l.*1 ++ [k].
Proof.
  induction l as [|[k0 v0] l IH]; simpl; intros Hin; [done|].
  apply not_elem_of_cons in Hin as [Hne Hin].
  rewrite decide_False by done. rewrite !fmap_cons, IH by done. done.
Qed.

End assoc_facts.

Section number_facts.

Lemma Qltb_lt (a b : Q) : Qltb a b = true <-> (a < b)%Q.
Proof.
  unfold Qltb. rewrite Qlt_alt. destruct (a ?= b)%Q; split; congruence.
Qed.

Lemma Qltb_irrefl_eq (a b : Q) : (a == b)%Q -> Qltb a b = false.
Proof.
  intros Heq. unfold Qltb. apply Qeq_alt in Heq. by rewrite Heq.
Qed.

Lemma Qltb_asym (a b : Q) : Qltb a b = true -> Qltb b a = false.
Proof.
  rewrite Qltb_lt. intros Hlt. destruct (Qltb b a) eqn:E; [|done].
  apply Qltb_lt in E. exfalso. apply (Qlt_irrefl a). by apply Qlt_trans with b.
Qed.

Lemma Qsign_pos (q : Q) : (0 < q)%Q -> Qsign q = 1%Z.
Proof.
  unfold Qlt, Qsign. simpl. rewrite Z.mul_1_r. intros H.
  apply Z.sgn_pos. lia.
Qed.

Lemma Qsign_neg (q : Q) : (q < 0)%Q -> Qsign q = (-1)%Z.
Proof.
  unfold Qlt, Qsign. simpl. rewrite Z.mul_1_r. intros H.
  apply Z.sgn_neg. lia.
Qed.

Lemma Qsign_zero (q : Q) : (q == 0)%Q -> Qsign q = 0%Z.
Proof.
  unfold Qeq, Qsign. simpl. rewrite Z.mul_1_r. intros ->. done.
Qed.

Lemma Qsign_range (q : Q) : Qsign q ∈ [(-1)%Z; 0%Z; 1%Z].
Proof.
  unfold Qsign. destruct (Qnum q); simpl; set_solver.
Qed.

End number_facts.

Section crossover.

(** The Crossover expression on two valid values is the sign of their
    difference. *)
Lemma crossover_value_sign (a b : Q) :
  crossover_value (Some a) (Some b) = Qsign (a - b).
Proof.
  unfold crossover_value, gt, lt, astype_int.
  destruct (Qcompare_spec a b) as [Heq|Hlt|Hgt].
  - rewrite !Qltb_irrefl_eq by (done || by symmetry).
    rewrite Qsign_zero; [done|]. rewrite Heq. ring.
  - assert (Hab : Qltb a b = true) by by apply Qltb_lt.
    rewrite Hab, (Qltb_asym _ _ Hab). simpl.
    rewrite Qsign_neg; [done|]. apply Qlt_minus_iff in Hlt.
    apply Qlt_minus_iff.
    assert (Hr : (0 + - (a - b) == b + - a)%Q) by ring. by rewrite Hr.
  - assert (Hba : Qltb b a = true) by by apply Qltb_lt.
    rewrite Hba, (Qltb_asym _ _ Hba). simpl.
    rewrite Qsign_pos; [done|]. apply Qlt_minus_iff in Hgt. done.
Qed.

(** A missing operand makes both comparisons False. *)
Lemma crossover_value_nan (roll ema : cell) :
  roll = NaN \/ ema = NaN -> crossover_value roll ema = 0%Z.
Proof.
  intros [-> | ->]; [done|]. by destruct roll.
Qed.

End crossover.

Section frame_facts.
Implicit Types (df : DataFrame) (col : string) (v : list cell).

Lemma getitem_setitem_eq df col v : getitem (setitem df col v) col = Ok v.
Proof. unfold getitem, setitem. simpl. by rewrite assoc_set_eq. Qed.

Lemma getitem_setitem_ne df col col' v :
  col ≠ col' -> getitem (setitem df col v) col' = getitem df col'.
Proof. intros Hne. unfold getitem, setitem. simpl. by rewrite assoc_set_ne. Qed.

Lemma index_setitem df col v : index (setitem df col v) = index df.
Proof. done. Qed.

Lemma getitem_Ok_elem df col v : getitem df col = Ok v -> (col, v) ∈ columns df.
Proof.
  unfold getitem. destruct (assoc col (columns df)) eqn:E; [|done].
  intros [= <-]. by apply assoc_Some_elem.
Qed.

Lemma getitem_Ok_name df col v : getitem df col = Ok v -> col ∈ column_names df.
Proof.
  intros H%getitem_Ok_elem. apply list_elem_of_fmap. by exists (col, v).
Qed.

Lemma getitem_name df col : col ∈ column_names df -> exists v, getitem df col = Ok v.
Proof.
  intros [v Hv]%assoc_is_Some. exists v. unfold getitem. by rewrite Hv.
Qed.

Lemma roll_col_ne_ema_col (window span : nat) :
  ROLL_AVG_DAYS_COLUMN_TEMPLATE window ≠ EMA_COLUMN_TEMPLATE span.
Proof. intros H. apply (f_equal (String.get 0)) in H. by vm_compute in H. Qed.

Lemma roll_col_ne_Crossover (window : nat) :
  "Crossover" ≠ ROLL_AVG_DAYS_COLUMN_TEMPLATE window.
Proof. intros H. apply (f_equal (String.get 0)) in H. by vm_compute in H. Qed.

Lemma ema_col_ne_Crossover (span : nat) : "Crossover" ≠ EMA_COLUMN_TEMPLATE span.
Proof. intros H. apply (f_equal (String.get 0)) in H. by vm_compute in H. Qed.

End frame_facts.

Lemma aligned_getitem (df : DataFrame) (col : string) (v : list cell) :
  aligned df -> getitem df col = Ok v -> length v = length (index df).
Proof.
  intros Hal Hget%getitem_Ok_elem.
  unfold aligned in Hal. rewrite Forall_forall in Hal. by apply (Hal (col, v)).
Qed.

Section crossover_frame.
Variables (roll_window span : nat) (df : DataFrame) (roll ema : list cell).
Hypothesis Hroll : getitem df (ROLL_AVG_DAYS_COLUMN_TEMPLATE roll_window) = Ok roll.
Hypothesis Hema : getitem df (EMA_COLUMN_TEMPLATE span) = Ok ema.

Let crossed : DataFrame :=
  setitem df "Crossover" (int_cell <$> zip_with crossover_value roll ema).

Lemma add_time_series_analysis_Ok :
  _add_time_series_analysis roll_window span df = Ok crossed.
Proof. unfold _add_time_series_analysis. simpl. by rewrite Hroll, Hema. Qed.

Lemma crossed_roll : getitem crossed (ROLL_AVG_DAYS_COLUMN_TEMPLATE roll_window) = Ok roll.
Proof.
  unfold crossed. rewrite getitem_setitem_ne; [done | apply roll_col_ne_Crossover].
Qed.

Lemma crossed_ema : getitem crossed (EMA_COLUMN_TEMPLATE span) = Ok ema.
Proof.
  unfold crossed. rewrite getitem_setitem_ne; [done | apply ema_col_ne_Crossover].
Qed.

Lemma crossed_Crossover :
  getitem crossed "Crossover" = Ok (int_cell <$> zip_with crossover_value roll ema).
Proof. apply getitem_setitem_eq. Qed.

Lemma crossed_lookup (i : nat) (r e : cell) :
  roll !! i = Some r -> ema !! i = Some e ->
  (int_cell <$> zip_with crossover_value roll ema) !! i
    = Some (int_cell (crossover_value r e)).
Proof.
  intros Hr He. rewrite list_lookup_fmap, lookup_zip_with, Hr. simpl. by rewrite He.
Qed.

End crossover_frame.

(** C1. On every row where the rolling average and the EMA are both valid,
    [_add_time_series_analysis] stores in Crossover an integer of
    {-1, 0, 1} that is the exact sign of RollAvg - EMA: 1 when the rolling
    average is greater, -1 when it is smaller, 0 when the two are equal. *)
Theorem crossover_sign_law (roll_window span : nat) (df : DataFrame)
    (roll ema : list cell) (i : nat) (a b : Q) :
  getitem df (ROLL_AVG_DAYS_COLUMN_TEMPLATE roll_window) = Ok roll ->
  getitem df (EMA_COLUMN_TEMPLATE span) = Ok ema ->
  roll !! i = Some (Some a) ->
  ema !! i = Some (Some b) ->
  exists (df' : DataFrame) (cross : list cell) (z : Z),
    _add_time_series_analysis roll_window span df = Ok df' /\
    getitem df' (ROLL_AVG_DAYS_COLUMN_TEMPLATE roll_window) = Ok roll /\
    getitem df' (EMA_COLUMN_TEMPLATE span) = Ok ema /\
    getitem df' "Crossover" = Ok cross /\
    cross !! i = Some (int_cell z) /\
    z ∈ [(-1)%Z; 0%Z; 1%Z] /\
    z = Qsign (a - b) /\
    ((b < a)%Q -> z = 1%Z) /\
    ((a < b)%Q -> z = (-1)%Z) /\
    ((a == b)%Q -> z = 0%Z).
Proof.
  intros Hroll Hema Hr He.
  eexists _, _, (Qsign (a - b)).
  split; [by apply add_time_series_analysis_Ok|].
  split; [by apply crossed_roll|].
  split; [by apply crossed_ema|].
  split; [by apply crossed_Crossover|].
  split.
  { rewrite (crossed_lookup _ _ i _ _ Hr He). by rewrite crossover_value_sign. }
  split; [apply Qsign_range|].
  split; [done|].
  split; [|split].
  - intros Hlt. apply Qsign_pos. by apply Qlt_minus_iff in Hlt.
  - intros Hlt. apply Qsign_neg. apply Qlt_minus_iff in Hlt. apply Qlt_minus_iff.
    assert (Hr' : (0 + - (a - b) == b + - a)%Q) by ring. by rewrite Hr'.
  - intros Heq. apply Qsign_zero. rewrite Heq. ring.
Qed.

Lemma crossover_sign_law_witness :
  exists (df' : DataFrame) (cross : list cell) (z : Z),
    _add_time_series_analysis 2 2 sample_crossover_frame = Ok df' /\
    getitem df' (ROLL_AVG_DAYS_COLUMN_TEMPLATE 2) = Ok [Some 1%Q; NaN; Some (5 # 2)%Q] /\
    getitem df' (EMA_COLUMN_TEMPLATE 2) = Ok [Some 1%Q; Some (5 # 3)%Q; Some (23 # 9)%Q] /\
    getitem df' "Crossover" = Ok cross /\
    cross !! 2 = Some (int_cell z) /\
    z ∈ [(-1)%Z; 0%Z; 1%Z] /\
    z = Qsign ((5 # 2) - (23 # 9)) /\
    ((23 # 9 < 5 # 2)%Q -> z = 1%Z) /\
    ((5 # 2 < 23 # 9)%Q -> z = (-1)%Z) /\
    ((5 # 2 == 23 # 9)%Q -> z = 0%Z).
Proof.
  apply (crossover_sign_law 2 2 sample_crossover_frame
           [Some 1%Q; NaN; Some (5 # 2)%Q]
           [Some 1%Q; Some (5 # 3)%Q; Some (23 # 9)%Q] 2 (5 # 2) (23 # 9));
    reflexivity.
Defined.

(** C10. On a frame that has both columns, [_add_time_series_analysis]
    raises nothing, and Crossover holds an integer on every row; it is 0 on
    every row where the rolling average or the EMA is missing. *)
Theorem crossover_total_never_null (roll_window span : nat) (df : DataFrame)
    (roll ema : list cell) :
  aligned df ->
  getitem df (ROLL_AVG_DAYS_COLUMN_TEMPLATE roll_window) = Ok roll ->
  getitem df (EMA_COLUMN_TEMPLATE span) = Ok ema ->
  exists (df' : DataFrame) (cross : list cell),
    _add_time_series_analysis roll_window span df = Ok df' /\
    getitem df' "Crossover" = Ok cross /\
    length cross = length (index df') /\
    (forall i, i < length (index df') -> exists z : Z, cross !! i = Some (int_cell z)) /\
    (forall i, roll !! i = Some NaN \/ ema !! i = Some NaN ->
               i < length (index df') -> cross !! i = Some (int_cell 0)).
Proof.
  intros Hal Hroll Hema.
  pose proof (aligned_getitem _ _ _ Hal Hroll) as Hlr.
  pose proof (aligned_getitem _ _ _ Hal Hema) as Hle.
  eexists _, _.
  split; [by apply add_time_series_analysis_Ok|].
  split; [by apply crossed_Crossover|].
  rewrite index_setitem.
  split; [rewrite length_fmap, length_zip_with; lia|].
  split.
  - intros i Hi.
    destruct (lookup_lt_is_Some_2 roll i) as [r Hr]; [lia|].
    destruct (lookup_lt_is_Some_2 ema i) as [e He]; [lia|].
    exists (crossover_value r e). by apply crossed_lookup.
  - intros i Hnan Hi.
    destruct (lookup_lt_is_Some_2 roll i) as [r Hr]; [lia|].
    destruct (lookup_lt_is_Some_2 ema i) as [e He]; [lia|].
    rewrite (crossed_lookup _ _ i _ _ Hr He). do 2 f_equal.
    apply crossover_value_nan. destruct Hnan as [H|H]; [left|right]; congruence.
Qed.

Lemma crossover_total_never_null_witness :
  exists (df' : DataFrame) (cross : list cell),
    _add_time_series_analysis 2 2 sample_crossover_frame = Ok df' /\
    getitem df' "Crossover" = Ok cross /\
    length cross = length (index df') /\
    (forall i, i < length (index df') -> exists z : Z, cross !! i = Some (int_cell z)) /\
    (forall i, [Some 1%Q; NaN; Some (5 # 2)%Q] !! i = Some NaN \/
               [Some 1%Q; Some (5 # 3)%Q; Some (23 # 9)%Q] !! i = Some NaN ->
               i < length (index df') -> cross !! i = Some (int_cell 0)).
Proof.
  apply (crossover_total_never_null 2 2 sample_crossover_frame);
    [repeat constructor | reflexivity | reflexivity].
Defined.

(** ** Filling missing values *)

Section assoc_set_facts.
Context {K V : Type} `{EqDecision K}.
Implicit Types (k : K) (v : V) (l : list (K * V)).

Lemma assoc_set_id k v l : assoc k l = Some v -> assoc_set k v l = l.
Proof.
  induction l as [|[k0 v0] l IH]; simpl; [done|].
  destruct (decide (k0 = k)) as [->|Hne].
  - by intros [= ->].
  - intros Hl. by rewrite IH.
Qed.

Lemma assoc_set_twice k v v' l : assoc_set k v (assoc_set k v' l) = assoc_set k v l.
Proof.
  induction l as [|[k0 v0] l IH]; simpl.
  - by rewrite decide_True.
  - destruct (decide (k0 = k)) as [->|Hne]; simpl.
    + by rewrite decide_True.
    + by rewrite decide_False, IH.
Qed.

Lemma assoc_set_comm k k' v v' l :
  k ≠ k' -> k ∈ l.*1 -> k' ∈ l.*1 ->
  assoc_set k v (assoc_set k' v' l) = assoc_set k' v' (assoc_set k v l).
Proof.
  intros Hne. induction l as [|[k0 v0] l IH]; intros Hk Hk'.
  - by apply elem_of_nil in Hk.
  - rewrite fmap_cons in Hk, Hk'. simpl in Hk, Hk'.
    apply elem_of_cons in Hk. apply elem_of_cons in Hk'.
    simpl. repeat (case_decide; simplify_eq; simpl); try done.
    f_equal. destruct Hk as [?|Hk]; [congruence|].
    destruct Hk' as [?|Hk']; [congruence|]. by apply IH.
Qed.

Lemma assoc_set_names k v l : k ∈ l.*1 -> (assoc_set k v l).*1 = l.*1.
Proof. apply assoc_set_names_in. Qed.

End assoc_set_facts.

Section fill_facts.
Implicit Types (l : list cell) (last : cell).

Lemma length_ffill_from last l : length (ffill_from last l) = length l.
Proof. revert last. induction l as [|x l IH]; intros last; simpl; [done|]. by rewrite IH. Qed.

Lemma length_ffill l : length (ffill l) = length l.
Proof. apply length_ffill_from. Qed.

Lemma length_bfill l : length (bfill l) = length l.
Proof. induction l as [|[x|] l IH]; simpl; by rewrite ?IH. Qed.

(** While only missing values have been met, the seed is carried. *)
Lemma ffill_from_gap last l i :
  i < length l ->
  (forall k, k <= i -> l !! k = Some NaN) ->
  ffill_from last l !! i = Some last.
Proof.
  revert last i. induction l as [|x l IH]; intros last i Hi Hgap; simpl in *; [lia|].
  assert (x = NaN) as ->.
  { specialize (Hgap 0 ltac:(lia)). simpl in Hgap. by injection Hgap. }
  destruct i as [|i]; simpl; [done|].
  apply IH; [lia|]. intros k Hk. apply (Hgap (S k)). lia.
Qed.

(** The last valid value at or above row [i] is the value of row [i]. *)
Lemma ffill_from_carry last l i j (x : Q) :
  j <= i -> i < length l ->
  l !! j = Some (Some x) ->
  (forall k, j < k <= i -> l !! k = Some NaN) ->
  ffill_from last l !! i = Some (Some x).
Proof.
  revert last i j. induction l as [|y l IH]; intros last i j Hji Hi Hj Hgap; simpl in *; [lia|].
  destruct j as [|j].
  - simpl in Hj. injection Hj as ->. destruct i as [|i]; simpl; [done|].
    apply ffill_from_gap; [lia|]. intros k Hk. apply (Hgap (S k)). lia.
  - destruct i as [|i]; [lia|]. simpl in *.
    apply (IH _ i j); [lia | lia | done |].
    intros k Hk. apply (Hgap (S k)). lia.
Qed.

Lemma bfill_gap l i :
  i < length l ->
  (forall k, i <= k -> k < length l -> l !! k = Some NaN) ->
  bfill l !! i = Some NaN.
Proof.
  revert i. induction l as [|y l IH]; intros i Hi Hgap; simpl in *; [lia|].
  destruct i as [|i].
  - assert (y = NaN) as ->.
    { specialize (Hgap 0 ltac:(simpl; lia)). simpl in Hgap. by injection Hgap. }
    simpl. f_equal. destruct l as [|z l]; [done|].
    assert (bfill (z :: l) !! 0 = Some NaN) as H0.
    { apply IH; [simpl; lia|]. intros k _ Hk. apply (Hgap (S k)); simpl in *; lia. }
    destruct (bfill (z :: l)); simpl in *; congruence.
  - assert (bfill l !! i = Some NaN) as Hl.
    { apply IH; [lia|]. intros k Hk Hk'. apply (Hgap (S k)); lia. }
    by destruct y.
Qed.

(** The next valid value at or below row [i] is the value of row [i]. *)
Lemma bfill_carry l i j (x : Q) :
  i <= j ->
  l !! j = Some (Some x) ->
  (forall k, i <= k < j -> l !! k = Some NaN) ->
  bfill l !! i = Some (Some x).
Proof.
  revert i j. induction l as [|y l IH]; intros i j Hij Hj Hgap; simpl in *; [done|].
  destruct i as [|i].
  - destruct j as [|j].
    + simpl in Hj. by injection Hj as ->.
    + assert (y = NaN) as ->.
      { specialize (Hgap 0 ltac:(simpl; lia)). simpl in Hgap. by injection Hgap. }
      simpl in *. f_equal.
      assert (bfill l !! 0 = Some (Some x)) as H0.
      { apply (IH 0 j); [lia | done |]. intros k Hk. apply (Hgap (S k)). lia. }
      destruct (bfill l); simpl in *; congruence.
  - destruct j as [|j]; [lia|]. simpl in Hj.
    assert (bfill l !! i = Some (Some x)) as Hl.
    { apply (IH i j); [lia | done |]. intros k Hk. apply (Hgap (S k)). lia. }
    by destruct y.
Qed.

Lemma ffill_from_idemp last l :
  ffill_from last (ffill_from last l) = ffill_from last l.
Proof.
  revert last. induction l as [|x l IH]; intros last; simpl; [done|].
  destruct x as [x|]; simpl.
  - by rewrite IH.
  - destruct last; by rewrite IH.
Qed.

Lemma ffill_idemp l : ffill (ffill l) = ffill l.
Proof. apply ffill_from_idemp. Qed.

Lemma bfill_idemp l : bfill (bfill l) = bfill l.
Proof.
  induction l as [|x l IH]; simpl; [done|].
  destruct x as [x|]; simpl.
  - by rewrite IH.
  - destruct (hd NaN (bfill l)) eqn:E; simpl; rewrite IH; [done|].
    by rewrite E.
Qed.

End fill_facts.

(** ** [_clean] *)

Section clean_facts.
Implicit Types (col : string) (cols : list (string * list cell)) (df : DataFrame).

Lemma ffill_forward_filled (v : list cell) : forward_filled v (ffill v).
Proof.
  split; [apply length_ffill|]. split.
  - intros i j x Hji Hi Hj Hgap. by apply (ffill_from_carry _ _ i j).
  - intros i Hi Hgap. by apply ffill_from_gap.
Qed.

Lemma bfill_backward_filled (v : list cell) : backward_filled v (bfill v).
Proof.
  split; [apply length_bfill|]. split.
  - intros i j x Hij Hj Hgap. by apply (bfill_carry _ i j).
  - intros i Hi Hgap. by apply bfill_gap.
Qed.

Lemma Volume_not_price : "Volume" ∉ price_columns.
Proof. intros Hin. apply (bool_decide_pack _) in Hin. by vm_compute in Hin. Qed.

Lemma clean_value_idemp col (v : list cell) :
  clean_value col (clean_value col v) = clean_value col v.
Proof.
  unfold clean_value. repeat case_decide; auto using ffill_idemp, bfill_idemp.
Qed.

Lemma clean_at_names col cols : (clean_at col cols).*1 = cols.*1.
Proof.
  unfold clean_at. destruct (assoc col cols) eqn:E; [|done].
  apply assoc_set_names. apply assoc_Some_elem in E.
  apply list_elem_of_fmap. by eexists (_, _).
Qed.

Lemma clean_at_idemp col cols : clean_at col (clean_at col cols) = clean_at col cols.
Proof.
  unfold clean_at. destruct (assoc col cols) eqn:E; [|by rewrite E].
  by rewrite assoc_set_eq, assoc_set_twice, clean_value_idemp.
Qed.

Lemma clean_at_comm col col' cols :
  clean_at col (clean_at col' cols) = clean_at col' (clean_at col cols).
Proof.
  destruct (decide (col = col')) as [->|Hne]; [done|].
  unfold clean_at.
  destruct (assoc col cols) as [v|] eqn:E, (assoc col' cols) as [v'|] eqn:E';
    rewrite ?E, ?E', ?assoc_set_ne, ?E, ?E' by congruence; try done.
  apply assoc_set_comm; [done | |].
  - apply assoc_Some_elem in E. apply list_elem_of_fmap. by eexists (_, _).
  - apply assoc_Some_elem in E'. apply list_elem_of_fmap. by eexists (_, _).
Qed.

Lemma assoc_clean_at col col' cols :
  assoc col' (clean_at col cols)
  = if decide (col = col') then clean_value col' <$> assoc col' cols
    else assoc col' cols.
Proof.
  unfold clean_at. case_decide as Hc.
  - subst. destruct (assoc col' cols) eqn:E; simpl; [by rewrite assoc_set_eq | done].
  - destruct (assoc col cols); [by rewrite assoc_set_ne | done].
Qed.

Lemma clean_body_Ok df col :
  col ∈ column_names df ->
  clean_body df col = Ok {| index := index df; columns := clean_at col (columns df) |}.
Proof.
  intros Hin. destruct (getitem_name _ _ Hin) as [v Hv].
  assert (assoc col (columns df) = Some v) as Hassoc.
  { unfold getitem in Hv. by destruct (assoc col (columns df)); simplify_eq. }
  unfold clean_body, clean_at, clean_value, price_columns. rewrite Hassoc, Hv. simpl.
  repeat case_decide; try done.
  unfold setitem. by rewrite (assoc_set_id _ _ _ Hassoc); destruct df.
Qed.

Lemma clean_columns_names names cols : (clean_columns names cols).*1 = cols.*1.
Proof.
  revert cols. induction names as [|c names IH]; intros cols; simpl; [done|].
  unfold clean_columns in *. simpl. by rewrite IH, clean_at_names.
Qed.

Lemma for_in_clean_body names idx cols :
  names ⊆ cols.*1 ->
  for_in names clean_body {| index := idx; columns := cols |}
  = Ok {| index := idx; columns := clean_columns names cols |}.
Proof.
  revert cols. induction names as [|c names IH]; intros cols Hsub; simpl; [done|].
  rewrite clean_body_Ok by (apply Hsub; left). simpl.
  rewrite IH; [done|]. rewrite clean_at_names. intros x Hx. apply Hsub. by right.
Qed.

Lemma clean_Ok df :
  _clean df = Ok {| index := index df;
                    columns := clean_columns (column_names df) (columns df) |}.
Proof.
  unfold _clean. destruct df as [idx cols]. simpl.
  by apply (for_in_clean_body (cols.*1) idx cols).
Qed.

Lemma clean_columns_push c names cols :
  clean_columns names (clean_at c cols) = clean_at c (clean_columns names cols).
Proof.
  revert cols. induction names as [|c' names IH]; intros cols; [done|].
  unfold clean_columns in *. simpl. by rewrite <- IH, clean_at_comm.
Qed.

Lemma clean_columns_idemp names cols :
  clean_columns names (clean_columns names cols) = clean_columns names cols.
Proof.
  revert cols. induction names as [|c names IH]; intros cols; [done|].
  change (clean_columns (c :: names) cols) with (clean_columns names (clean_at c cols)).
  change (clean_columns (c :: names) ?x) with (clean_columns names (clean_at c x)).
  by rewrite <- clean_columns_push, clean_at_idemp, IH.
Qed.

Lemma assoc_clean_columns names col cols :
  assoc col (clean_columns names cols)
  = if decide (col ∈ names) then clean_value col <$> assoc col cols
    else assoc col cols.
Proof.
  revert cols. induction names as [|c names IH]; intros cols.
  - unfold clean_columns. cbn [foldl].
    case_decide as Hin; [by apply elem_of_nil in Hin | done].
  - change (clean_columns (c :: names) cols) with (clean_columns names (clean_at c cols)).
    rewrite IH, assoc_clean_at.
    destruct (decide (c = col)) as [->|Hne].
    + rewrite (decide_True (P := col ∈ col :: names)) by left.
      case_decide; [|done].
      destruct (assoc col cols); simpl; [|done]. by rewrite clean_value_idemp.
    + destruct (decide (col ∈ names)) as [Hin|Hin].
      * by rewrite decide_True by by right.
      * rewrite decide_False; [done|]. intros [?|?]%elem_of_cons; congruence.
Qed.

End clean_facts.

(** C5. [_clean] never raises; it leaves the index and the column labels as
    they are; each of the price columns Open, High, Low, Close and
    Adj Close is forward filled over the rows of the whole table, Volume is
    back filled, every other column is unchanged.  A value with nothing to
    fill it from (a leading gap of a price column, a trailing gap of Volume)
    stays missing. *)
Theorem clean_fills_prices_forward_volume_backward (df : DataFrame) :
  exists df' : DataFrame,
    _clean df = Ok df' /\
    index df' = index df /\
    column_names df' = column_names df /\
    forall (col : string) (v : list cell),
      getitem df col = Ok v ->
      exists v' : list cell,
        getitem df' col = Ok v' /\
        (col ∈ ["Open"; "High"; "Low"; "Close"; "Adj Close"] -> forward_filled v v') /\
        (col = "Volume" -> backward_filled v v') /\
        (col ∉ ["Open"; "High"; "Low"; "Close"; "Adj Close"] -> col ≠ "Volume" -> v' = v).
Proof.
  eexists. split; [apply clean_Ok|]. split; [done|].
  split; [apply clean_columns_names|].
  intros col v Hget. exists (clean_value col v).
  assert (assoc col (columns df) = Some v) as Hassoc.
  { unfold getitem in Hget. by destruct (assoc col (columns df)); simplify_eq. }
  split.
  - unfold getitem. simpl. rewrite assoc_clean_columns, Hassoc.
    rewrite decide_True; [done|]. by apply (getitem_Ok_name _ _ v).
  - unfold clean_value, price_columns. split; [|split].
    + intros Hp. rewrite decide_True by done. apply ffill_forward_filled.
    + intros ->. rewrite decide_False by apply Volume_not_price.
      rewrite decide_True by done. apply bfill_backward_filled.
    + intros Hp Hv. by rewrite !decide_False.
Qed.

(** C8. [_clean] is idempotent: cleaning the cleaned frame returns it
    unchanged. *)
Theorem clean_idempotent (df : DataFrame) :
  exists df' : DataFrame, _clean df = Ok df' /\ _clean df' = Ok df'.
Proof.
  eexists. split; [apply clean_Ok|].
  rewrite clean_Ok. simpl. unfold column_names. simpl.
  by rewrite clean_columns_names, clean_columns_idemp.
Qed.

(** ** Sorting, distinct elements *)

Section sort_facts.
Context {A : Type}.
Implicit Types (leb : A -> A -> bool) (l : list A).

Lemma insert_sorted_Permutation leb x l : insert_sorted leb x l ≡ₚ x :: l.
Proof.
  induction l as [|y l IH]; simpl; [done|].
  destruct (leb x y); [done|]. rewrite IH. apply Permutation_swap.
Qed.

Lemma isort_Permutation leb l : isort leb l ≡ₚ l.
Proof.
  induction l as [|x l IH]; simpl; [done|].
  by rewrite insert_sorted_Permutation, IH.
Qed.

End sort_facts.

Section unique_facts.
Context {A : Type} `{EqDecision A}.
Implicit Types (l : list A).

Lemma elem_of_unique x l : x ∈ unique l <-> x ∈ l.
Proof.
  induction l as [|y l IH]; simpl; [done|].
  rewrite !elem_of_cons, list_elem_of_filter, IH.
  destruct (decide (x = y)); tauto.
Qed.

Lemma NoDup_unique l : NoDup (unique l).
Proof.
  induction l as [|y l IH]; simpl; [constructor|].
  apply NoDup_cons. split; [|by apply NoDup_filter].
  rewrite list_elem_of_filter. intros [Hne _]. by apply Hne.
Qed.

End unique_facts.

(** ** Grouping *)

Section group_facts.
Implicit Types (t : string) (idx : list label) (vals : list cell) (k : label).

Lemma elem_of_group_keys t idx : t ∈ group_keys idx <-> t ∈ idx.*2.
Proof. unfold group_keys. by rewrite isort_Permutation, elem_of_unique. Qed.

Lemma NoDup_group_keys idx : NoDup (group_keys idx).
Proof. unfold group_keys. rewrite isort_Permutation. apply NoDup_unique. Qed.

Lemma elem_of_group_labels t idx k : k ∈ group_labels t idx <-> k.2 = t /\ k ∈ idx.
Proof. unfold group_labels. by rewrite list_elem_of_filter. Qed.

Lemma group_rows_fst t idx vals :
  length idx <= length vals -> (group_rows t idx vals).*1 = group_labels t idx.
Proof.
  unfold group_rows, group_labels. revert vals.
  induction idx as [|k idx IH]; intros [|v vals] Hlen; simpl in *; try done; try lia.
  rewrite !filter_cons. unfold ticker_is at 1. simpl.
  destruct (decide (k.2 = t)); rewrite ?fmap_cons; simpl; rewrite IH by lia; done.
Qed.

Lemma length_group_rows t idx vals :
  length idx <= length vals -> length (group_rows t idx vals) = length (group_labels t idx).
Proof. intros Hlen. by rewrite <- (group_rows_fst t idx vals Hlen), length_fmap. Qed.

Lemma group_rows_fmap {f : label -> cell} t idx :
  (group_rows t idx (f <$> idx)).*2 = f <$> group_labels t idx.
Proof.
  unfold group_rows, group_labels.
  induction idx as [|k idx IH]; [done|].
  rewrite fmap_cons. simpl. rewrite !filter_cons. unfold ticker_is at 1. simpl.
  destruct (decide (k.2 = t)); rewrite ?fmap_cons; simpl; rewrite IH; done.
Qed.

End group_facts.

Section assoc_more.
Context {K V : Type} `{EqDecision K}.
Implicit Types (k : K) (v d : V) (l : list (K * V)).

Lemma assoc_app k l1 l2 :
  assoc k (l1 ++ l2) = match assoc k l1 with Some v => Some v | None => assoc k l2 end.
Proof.
  induction l1 as [|[k0 v0] l1 IH]; simpl; [done|].
  by destruct (decide (k0 = k)).
Qed.

Lemma assoc_zip_fmap d (ks : list K) (vs : list V) :
  NoDup ks -> length vs = length ks ->
  (fun k => default d (assoc k (zip ks vs))) <$> ks = vs.
Proof.
  revert vs. induction ks as [|k ks IH]; intros [|v vs] Hnd Hlen; simpl in *; try done.
  apply NoDup_cons in Hnd as [Hk Hnd].
  rewrite decide_True by done. simpl. f_equal.
  transitivity ((fun k => default d (assoc k (zip ks vs))) <$> ks);
    [|apply IH; [done|lia]].
  apply list_fmap_ext. intros i k' Hk'.
  rewrite decide_False; [done|]. intros ->. apply Hk. by eapply list_elem_of_lookup_2.
Qed.

Lemma snd_assoc_fst d l :
  NoDup (l.*1) -> l.*2 = (fun k => default d (assoc k l)) <$> l.*1.
Proof.
  intros Hnd. pose proof (assoc_zip_fmap d (l.*1) (l.*2) Hnd) as H.
  rewrite zip_fst_snd in H. symmetry. apply H. by rewrite !length_fmap.
Qed.

End assoc_more.

(** ** Grouped window aggregations and their alignment with the frame *)

Section groupby_window_facts.
Variable agg : list cell -> list cell.
Hypothesis agg_length : forall l, length (agg l) = length l.
Variables (idx : list label) (vals : list cell).
Hypothesis Hlen : length vals = length idx.

Lemma group_piece_fst t : (group_piece agg idx vals t).*1 = group_labels t idx.
Proof.
  unfold group_piece. simpl. rewrite fst_zip.
  - apply group_rows_fst. lia.
  - by rewrite agg_length, !length_fmap.
Qed.

Lemma pieces_fst (ts : list string) :
  (ts ≫= group_piece agg idx vals).*1 = ts ≫= (fun t => group_labels t idx).
Proof.
  induction ts as [|t ts IH]; [done|].
  by rewrite !bind_cons, fmap_app, IH, group_piece_fst.
Qed.

Lemma groupby_window_pieces :
  groupby_window agg idx vals = group_keys idx ≫= group_piece agg idx vals.
Proof. done. Qed.

Lemma groupby_window_NoDup :
  NoDup idx -> NoDup ((groupby_window agg idx vals).*1).
Proof.
  intros Hnd. rewrite groupby_window_pieces, pieces_fst. apply NoDup_bind.
  - intros t1 t2 k _ _ [H1 _]%elem_of_group_labels [H2 _]%elem_of_group_labels.
    congruence.
  - intros t _. by apply NoDup_filter.
  - apply NoDup_group_keys.
Qed.

Lemma assoc_pieces_other (k : label) (ts : list string) :
  k.2 ∉ ts -> assoc k (ts ≫= group_piece agg idx vals) = None.
Proof.
  intros Hk. apply assoc_None. rewrite pieces_fst.
  intros (t & [Ht _]%elem_of_group_labels & Hin)%list_elem_of_bind. congruence.
Qed.

Lemma assoc_pieces (k : label) (ts : list string) :
  NoDup ts -> k.2 ∈ ts ->
  assoc k (ts ≫= group_piece agg idx vals) = assoc k (group_piece agg idx vals k.2).
Proof.
  induction ts as [|t ts IH]; intros Hnd Hin; [by apply elem_of_nil in Hin|].
  apply NoDup_cons in Hnd as [Ht Hnd].
  rewrite bind_cons, assoc_app.
  destruct (decide (t = k.2)) as [->|Hne].
  - destruct (assoc k (group_piece agg idx vals k.2)); [done|]. by apply assoc_pieces_other.
  - assert (assoc k (group_piece agg idx vals t) = None) as ->.
    { apply assoc_None. rewrite group_piece_fst.
      intros [? _]%elem_of_group_labels. congruence. }
    apply IH; [done|]. apply elem_of_cons in Hin as [?|?]; congruence.
Qed.

Lemma reindex_groupby_window :
  NoDup idx ->
  reindex_for_setitem (groupby_window agg idx vals) idx = Ok (realigned agg idx vals).
Proof.
  intros Hnd. pose proof (groupby_window_NoDup Hnd) as Hs.
  unfold reindex_for_setitem. case_decide as Heq.
  - f_equal. unfold realigned. rewrite <- Heq at 2. by apply snd_assoc_fst.
  - by rewrite decide_True.
Qed.

Lemma realigned_group (t : string) :
  NoDup idx ->
  (group_rows t idx (realigned agg idx vals)).*2 = agg ((group_rows t idx vals).*2).
Proof.
  intros Hnd. unfold realigned. rewrite group_rows_fmap.
  transitivity ((fun k => default NaN (assoc k (group_piece agg idx vals t)))
                  <$> group_labels t idx).
  - apply list_fmap_ext. intros i k Hk.
    apply list_elem_of_lookup_2, elem_of_group_labels in Hk as [<- Hin].
    rewrite groupby_window_pieces, assoc_pieces; [done | apply NoDup_group_keys |].
    apply elem_of_group_keys, list_elem_of_fmap. by exists k.
  - unfold group_piece. simpl. rewrite (group_rows_fst t idx vals) by lia.
    apply assoc_zip_fmap; [by apply NoDup_filter|].
    rewrite agg_length, length_fmap. apply length_group_rows. lia.
Qed.

Lemma length_realigned : length (realigned agg idx vals) = length idx.
Proof. unfold realigned. by rewrite length_fmap. Qed.

End groupby_window_facts.

(** ** Rolling mean of one group *)

Section roll_mean_facts.
Implicit Types (vals : list cell) (window i : nat).

Lemma length_roll_mean window minp vals : length (roll_mean window minp vals) = length vals.
Proof. unfold roll_mean. by rewrite length_fmap, length_seq. Qed.

Lemma roll_mean_lookup window vals i :
  i < length vals ->
  roll_mean window 1 vals !! i
  = Some (let obs := observations (slice (i + 1 - window) (i + 1) vals) in
          match obs with
          | [] => NaN
          | _ :: _ => Some (Qsum obs / inject_Z (Z.of_nat (length obs)))%Q
          end).
Proof.
  intros Hi. unfold roll_mean. rewrite list_lookup_fmap, lookup_seq_lt by done.
  unfold window_bounds. cbn [fmap option_fmap option_map]. f_equal.
  change (0 + i) with i.
  destruct (observations _) as [|q obs]; case_decide; try done; simpl in *; lia.
Qed.

(** A valid value on the row itself is an observation of its window. *)
Lemma window_has_own_value window vals i (x : Q) :
  1 <= window -> vals !! i = Some (Some x) ->
  observations (slice (i + 1 - window) (i + 1) vals) <> [].
Proof.
  intros Hw Hx Hnil.
  assert (x ∈ observations (slice (i + 1 - window) (i + 1) vals)) as Hin.
  { unfold observations. apply list_elem_of_omap. exists (Some x). split; [|done].
    unfold slice. apply (list_elem_of_lookup_2 _ (i - (i + 1 - window))).
    rewrite lookup_take_lt by lia. rewrite lookup_drop.
    replace (i + 1 - window + (i - (i + 1 - window))) with i by lia. done. }
  rewrite Hnil in Hin. by apply elem_of_nil in Hin.
Qed.

End roll_mean_facts.

(** ** [_add_rolling_average] *)

Section rolling_frame.
Variables (window : nat) (df : DataFrame) (close : list cell).
Hypothesis Hwindow : 1 <= window.
Hypothesis Hnodup : NoDup (index df).
Hypothesis Hclose : getitem df "Close" = Ok close.
Hypothesis Hlen : length close = length (index df).

Lemma add_rolling_average_Ok :
  _add_rolling_average window df
  = Ok (setitem df (ROLL_AVG_DAYS_COLUMN_TEMPLATE window)
          (realigned (roll_mean window 1) (index df) close)).
Proof.
  unfold _add_rolling_average. rewrite Hclose. simpl.
  unfold validate_rolling. rewrite decide_True by done. simpl.
  rewrite reindex_groupby_window; [done | | done | done].
  intros l. apply length_roll_mean.
Qed.

Lemma rolling_group (t : string) :
  (group_rows t (index df) (realigned (roll_mean window 1) (index df) close)).*2
  = roll_mean window 1 ((group_rows t (index df) close).*2).
Proof. apply realigned_group; [|done|done]. intros l. apply length_roll_mean. Qed.

End rolling_frame.

(** C3, as stated, fails: a leading gap of Close survives [_clean], and the
    rolling average of the first row is then missing. *)
Lemma rolling_average_null_on_leading_gap :
  exists roll : list cell,
    (d ← _clean leading_gap_frame;
     d ← _add_rolling_average 2 d;
     getitem d (ROLL_AVG_DAYS_COLUMN_TEMPLATE 2)) = Ok roll /\
    roll !! 0 = Some NaN.
Proof. eexists. split; [vm_compute; reflexivity | reflexivity]. Qed.

(** C3, amended. For a window of at least one row, on a frame with distinct
    labels, [_add_rolling_average] returns; within every ticker group, taken
    in frame order, the value of a row is the mean of the valid Close values
    among the rows of the trailing window (the row and up to [window - 1]
    rows above it, fewer at the start of the group), and it is missing
    exactly when that window has no valid Close.  In particular the value
    is never missing on a row whose own Close is valid, the first row of a
    group included. *)
Theorem rolling_average_partial_window (window : nat) (df : DataFrame)
    (close : list cell) :
  1 <= window ->
  NoDup (index df) ->
  getitem df "Close" = Ok close ->
  length close = length (index df) ->
  exists (df' : DataFrame) (roll : list cell),
    _add_rolling_average window df = Ok df' /\
    index df' = index df /\
    getitem df' (ROLL_AVG_DAYS_COLUMN_TEMPLATE window) = Ok roll /\
    length roll = length (index df) /\
    forall t : string,
      let c := (group_rows t (index df) close).*2 in
      let r := (group_rows t (index df) roll).*2 in
      length r = length c /\
      forall j, j < length c ->
        let obs := observations (slice (j + 1 - window) (j + 1) c) in
        (obs <> [] ->
           exists q : Q, r !! j = Some (Some q) /\
                         (q == Qsum obs / inject_Z (Z.of_nat (length obs)))%Q) /\
        (obs = [] -> r !! j = Some NaN) /\
        (forall x : Q, c !! j = Some (Some x) -> exists q : Q, r !! j = Some (Some q)).
Proof.
  intros Hw Hnd Hclose Hlen. eexists _, _.
  split; [by apply add_rolling_average_Ok|].
  split; [done|].
  split; [apply getitem_setitem_eq|].
  split; [apply length_realigned|].
  intros t c r. subst c r. rewrite rolling_group by done.
  split; [apply length_roll_mean|].
  intros j Hj obs.
  pose proof (fun x => window_has_own_value window
                         ((group_rows t (index df) close).*2) j x Hw) as Hown.
  pose proof (roll_mean_lookup window _ j Hj) as Hr. cbv zeta in Hr.
  fold obs in Hown, Hr. clearbody obs.
  split; [|split].
  - intros Hobs. destruct obs as [|q obs']; [done|].
    eexists. split; [exact Hr | reflexivity].
  - intros ->. exact Hr.
  - intros x Hx. specialize (Hown x Hx).
    destruct obs as [|q obs']; [done|]. eexists. exact Hr.
Qed.

Lemma rolling_average_partial_window_witness :
  exists (df' : DataFrame) (roll : list cell),
    _add_rolling_average 2 two_ticker_frame = Ok df' /\
    index df' = index two_ticker_frame /\
    getitem df' (ROLL_AVG_DAYS_COLUMN_TEMPLATE 2) = Ok roll /\
    length roll = length (index two_ticker_frame) /\
    forall t : string,
      let c := (group_rows t (index two_ticker_frame)
                  [Some 10%Q; Some 20%Q; Some 1%Q; NaN; Some 4%Q]).*2 in
      let r := (group_rows t (index two_ticker_frame) roll).*2 in
      length r = length c /\
      forall j, j < length c ->
        let obs := observations (slice (j + 1 - 2) (j + 1) c) in
        (obs <> [] ->
           exists q : Q, r !! j = Some (Some q) /\
                         (q == Qsum obs / inject_Z (Z.of_nat (length obs)))%Q) /\
        (obs = [] -> r !! j = Some NaN) /\
        (forall x : Q, c !! j = Some (Some x) -> exists q : Q, r !! j = Some (Some q)).
Proof.
  apply (rolling_average_partial_window 2 two_ticker_frame).
  - lia.
  - apply (bool_decide_unpack _). vm_compute. exact I.
  - reflexivity.
  - reflexivity.
Defined.

(** ** Exponentially weighted mean of one group *)

Section ewm_facts.
Variable alpha : Q.
Implicit Types (st : ewm_state) (cur : cell) (vals : list cell).

#[local] Abbreviation step := (ewm_step alpha false false).
#[local] Abbreviation loop := (ewm_loop alpha false false 1).

Lemma ewm_step_inv st cur : ewm_inv st -> ewm_inv (step st cur).
Proof.
  unfold ewm_inv, ewm_step.
  destruct (weighted st) as [w|], cur as [c|]; simpl; intros H; try lia.
  destruct H. split; [done | lia].
Qed.

Lemma ewm_step_fresh st (c : Q) : ewm_inv st -> ewm_fresh (step st (Some c)).
Proof.
  unfold ewm_inv, ewm_fresh, ewm_step.
  destruct (weighted st) as [w|]; simpl; intros H; (split; [by eexists|]).
  - split; [done | lia].
  - destruct H. split; [done | lia].
Qed.

Lemma ewm_run_inv st vals : ewm_inv st -> ewm_inv (ewm_run alpha st vals).
Proof.
  revert st. induction vals as [|x vals IH]; intros st Hinv; [done|].
  apply IH. by apply ewm_step_inv.
Qed.

Lemma ewm_output_inv st : ewm_inv st -> ewm_output 1 st = weighted st.
Proof.
  unfold ewm_inv, ewm_output. destruct (weighted st); intros H; case_decide; try done; lia.
Qed.

(** From a state just after an observation, a new observation [x] moves the
    mean [w] to [alpha x + (1 - alpha) w]. *)
Lemma ewm_step_recursion st (w x : Q) :
  ewm_fresh st -> weighted st = Some w ->
  exists w' : Q, weighted (step st (Some x)) = Some w' /\
                 (w' == alpha * x + (1 - alpha) * w)%Q.
Proof.
  intros (_ & Hwt & _) Hw. unfold ewm_step. rewrite Hw, Hwt. simpl.
  eexists. split; [done|].
  destruct (Qeq_bool w x) eqn:E.
  - apply Qeq_bool_eq in E. rewrite E. ring.
  - assert (Hone : (1 * (1 - alpha) + alpha == 1)%Q) by ring.
    unfold Qdiv. rewrite Hone. change (/ 1)%Q with 1%Q. ring.
Qed.

Lemma length_ewm_loop st vals : length (loop st vals) = length vals.
Proof. revert st. induction vals as [|x vals IH]; intros st; simpl; [done|]. by rewrite IH. Qed.

Lemma ewm_loop_lookup st vals i :
  i < length vals ->
  loop st vals !! i = Some (ewm_output 1 (ewm_run alpha st (take (S i) vals))).
Proof.
  revert st i. induction vals as [|x vals IH]; intros st i Hi; simpl in *; [lia|].
  destruct i as [|i]; simpl.
  - done.
  - apply IH. lia.
Qed.

End ewm_facts.

Section ewm_span_facts.
Variable span : nat.
Implicit Types (vals c rest : list cell) (first : cell).

#[local] Abbreviation alpha := (1 / (1 + com_of_span span))%Q.
#[local] Abbreviation ema := (ewm (com_of_span span) false false 1).

Lemma span_succ_nonzero : ~ (inject_Z (Z.of_nat span) + 1 == 0)%Q.
Proof. unfold Qeq, Qplus, inject_Z. simpl. lia. Qed.

Lemma alpha_of_span : (alpha == smoothing_factor span)%Q.
Proof.
  unfold com_of_span, smoothing_factor. field. apply span_succ_nonzero.
Qed.

Lemma ewm_init_inv first : ewm_inv (ewm_init first).
Proof. unfold ewm_inv, ewm_init. destruct first; simpl; [lia | done]. Qed.

Lemma length_ewm vals : length (ema vals) = length vals.
Proof. destruct vals as [|first rest]; simpl; [done|]. by rewrite length_ewm_loop. Qed.

Lemma ewm_lookup first rest j :
  j < S (length rest) ->
  ema (first :: rest) !! j
  = Some (weighted (ewm_run alpha (ewm_init first) (take j rest))).
Proof.
  intros Hj. unfold ewm. fold (ewm_init first). destruct j as [|j]; simpl.
  - by rewrite ewm_output_inv by apply ewm_init_inv.
  - rewrite ewm_loop_lookup by lia.
    by rewrite ewm_output_inv by apply ewm_run_inv, ewm_init_inv.
Qed.

(** EMA[0] is Close[0], whatever it is. *)
Lemma ewm_seed vals : ema vals !! 0 = vals !! 0.
Proof.
  destruct vals as [|first rest]; [done|].
  rewrite ewm_lookup by lia. by rewrite take_0.
Qed.

Lemma ewm_run_after_observation first rest j (p : Q) :
  (first :: rest) !! j = Some (Some p) ->
  ewm_fresh (ewm_run alpha (ewm_init first) (take j rest)).
Proof.
  intros Hp. destruct j as [|j]; simpl in Hp.
  - injection Hp as ->. rewrite take_0. unfold ewm_fresh, ewm_init. simpl.
    split; [by eexists | done].
  - rewrite (take_S_r _ _ _ Hp). unfold ewm_run. rewrite foldl_app. simpl.
    apply ewm_step_fresh. apply ewm_run_inv, ewm_init_inv.
Qed.

(** Where the previous and the current Close are both valid, the mean moves
    by the recursion of the non-adjusted form. *)
Lemma ewm_recursion vals j (p x : Q) :
  vals !! j = Some (Some p) ->
  vals !! S j = Some (Some x) ->
  exists prev cur : Q,
    ema vals !! j = Some (Some prev) /\
    ema vals !! S j = Some (Some cur) /\
    (cur == smoothing_factor span * x + (1 - smoothing_factor span) * prev)%Q.
Proof.
  intros Hp Hx. destruct vals as [|first rest]; [done|].
  pose proof (lookup_lt_Some _ _ _ Hx) as Hlt. simpl in Hlt, Hx.
  pose proof (ewm_run_after_observation first rest j p Hp) as Hfresh.
  destruct Hfresh as [[prev Hprev] Hrest].
  assert (ewm_fresh (ewm_run alpha (ewm_init first) (take j rest))) as Hfresh
    by (split; [by eexists | done]).
  destruct (ewm_step_recursion alpha _ prev x Hfresh Hprev) as (cur & Hcur & Heq).
  exists prev, cur. split; [|split].
  - rewrite ewm_lookup by lia. by rewrite Hprev.
  - rewrite ewm_lookup by lia. rewrite (take_S_r _ _ _ Hx).
    unfold ewm_run in *. rewrite foldl_app. simpl. by rewrite Hcur.
  - by rewrite <- alpha_of_span.
Qed.

End ewm_span_facts.

(** ** [_add_ema] *)

Section ema_frame.
Variables (span : nat) (df : DataFrame) (close : list cell).
Hypothesis Hspan : 1 <= span.
Hypothesis Hnodup : NoDup (index df).
Hypothesis Hclose : getitem df "Close" = Ok close.
Hypothesis Hlen : length close = length (index df).

Lemma add_ema_Ok :
  _add_ema span df
  = Ok (setitem df (EMA_COLUMN_TEMPLATE span)
          (realigned (ewm (com_of_span span) false false 1) (index df) close)).
Proof.
  unfold _add_ema. rewrite Hclose. simpl.
  unfold validate_span. rewrite decide_True by done. simpl.
  rewrite reindex_groupby_window; [done | | done | done].
  intros l. apply length_ewm.
Qed.

Lemma ema_group (t : string) :
  (group_rows t (index df)
     (realigned (ewm (com_of_span span) false false 1) (index df) close)).*2
  = ewm (com_of_span span) false false 1 ((group_rows t (index df) close).*2).
Proof. apply realigned_group; [|done|done]. intros l. apply length_ewm. Qed.

End ema_frame.

(** C2, as stated, fails: with span 3 (alpha = 1/2) and Close = 1, NaN, 4,
    EMA[1] is 1 and EMA[2] is 3, not alpha * 4 + (1 - alpha) * 1 = 5/2.
    After [_clean] a gap can only remain at the top of the table; there
    EMA[1] is Close[1] although EMA[0] is missing. *)
Lemma ema_recursion_fails_after_gap :
  (exists (df' : DataFrame) (ema : list cell) (e1 e2 : Q),
     _add_ema 3 inner_gap_frame = Ok df' /\
     getitem df' (EMA_COLUMN_TEMPLATE 3) = Ok ema /\
     ema !! 1 = Some (Some e1) /\
     ema !! 2 = Some (Some e2) /\
     (smoothing_factor 3 == 1 # 2)%Q /\
     ~ (e2 == smoothing_factor 3 * 4 + (1 - smoothing_factor 3) * e1)%Q) /\
  (d ← _clean leading_gap_frame;
   d ← _add_ema 3 d;
   getitem d (EMA_COLUMN_TEMPLATE 3)) = Ok [NaN; Some 2%Q].
Proof.
  split; [|vm_compute; reflexivity].
  eexists _, _, _, _.
  split; [vm_compute; reflexivity|].
  split; [vm_compute; reflexivity|].
  split; [reflexivity|].
  split; [reflexivity|].
  split; [reflexivity|].
  intros H. vm_compute in H. discriminate.
Qed.

(** C2, amended. For a span of at least one, on a frame with distinct
    labels, [_add_ema] returns; within every ticker group, taken in frame
    order, EMA[0] is Close[0] itself, and at every later row [t] whose Close
    and whose predecessor's Close are both valid,
    EMA[t] = alpha * Close[t] + (1 - alpha) * EMA[t-1] with
    alpha = 2 / (span + 1). *)
Theorem ema_seed_and_recursion (span : nat) (df : DataFrame) (close : list cell) :
  1 <= span ->
  NoDup (index df) ->
  getitem df "Close" = Ok close ->
  length close = length (index df) ->
  exists (df' : DataFrame) (ema : list cell),
    _add_ema span df = Ok df' /\
    index df' = index df /\
    getitem df' (EMA_COLUMN_TEMPLATE span) = Ok ema /\
    length ema = length (index df) /\
    forall t : string,
      let c := (group_rows t (index df) close).*2 in
      let e := (group_rows t (index df) ema).*2 in
      length e = length c /\
      e !! 0 = c !! 0 /\
      forall (j : nat) (p x : Q),
        c !! j = Some (Some p) ->
        c !! S j = Some (Some x) ->
        exists prev cur : Q,
          e !! j = Some (Some prev) /\
          e !! S j = Some (Some cur) /\
          (cur == smoothing_factor span * x + (1 - smoothing_factor span) * prev)%Q.
Proof.
  intros Hs Hnd Hclose Hlen. eexists _, _.
  split; [by apply add_ema_Ok|].
  split; [done|].
  split; [apply getitem_setitem_eq|].
  split; [apply length_realigned|].
  intros t c e. subst c e. rewrite ema_group by done.
  split; [apply length_ewm|].
  split; [apply ewm_seed|].
  intros j p x Hp Hx. by apply (ewm_recursion span _ j p x).
Qed.

Lemma ema_seed_and_recursion_witness :
  exists (df' : DataFrame) (ema : list cell),
    _add_ema 2 two_ticker_frame = Ok df' /\
    index df' = index two_ticker_frame /\
    getitem df' (EMA_COLUMN_TEMPLATE 2) = Ok ema /\
    length ema = length (index two_ticker_frame) /\
    forall t : string,
      let c := (group_rows t (index two_ticker_frame)
                  [Some 10%Q; Some 20%Q; Some 1%Q; NaN; Some 4%Q]).*2 in
      let e := (group_rows t (index two_ticker_frame) ema).*2 in
      length e = length c /\
      e !! 0 = c !! 0 /\
      forall (j : nat) (p x : Q),
        c !! j = Some (Some p) ->
        c !! S j = Some (Some x) ->
        exists prev cur : Q,
          e !! j = Some (Some prev) /\
          e !! S j = Some (Some cur) /\
          (cur == smoothing_factor 2 * x + (1 - smoothing_factor 2) * prev)%Q.
Proof.
  apply (ema_seed_and_recursion 2 two_ticker_frame).
  - lia.
  - apply (bool_decide_unpack _). vm_compute. exact I.
  - reflexivity.
  - reflexivity.
Defined.

(** ** [_read_and_concatenate] *)

Section read_facts.
Variables (cc : CommonConfig) (date : string) (fs : gmap string CsvTable).
Implicit Types (tickers : list string) (dfs : list Tagged).

Lemma for_in_read_all tickers (acc : list Tagged) :
  for_in tickers (fun (dfs : list Tagged) ticker =>
      t ← read_csv fs ((_get_path cc "extract" +:+ "/" +:+ date) +:+ "/" +:+ ticker +:+ ".csv");
      dates ← match csv_Date t with
              | Some d => Ok d
              | None => Raise (KeyError "Date")
              end;
      Ok (dfs ++ [{| tg_Date := dates; tg_Ticker := ticker;
                     tg_columns := csv_columns t |}])) acc
  = (l ← read_all cc date fs tickers; Ok (acc ++ l)).
Proof.
  revert acc. induction tickers as [|ticker tickers IH]; intros acc; simpl.
  - by rewrite app_nil_r.
  - unfold read_one, extract_path.
    destruct (read_csv fs _) as [t|e]; simpl; [|done].
    destruct (csv_Date t) as [dates|]; simpl; [|done].
    rewrite IH. destruct (read_all cc date fs tickers) as [l|e]; simpl; [|done].
    by rewrite <- app_assoc.
Qed.

Lemma read_and_concatenate_unfold tickers :
  _read_and_concatenate cc tickers date fs
  = (dfs ← read_all cc date fs tickers; concat_set_index dfs).
Proof.
  unfold _read_and_concatenate. cbv zeta. rewrite for_in_read_all.
  by destruct (read_all cc date fs tickers).
Qed.

Lemma read_all_tickers tickers dfs :
  read_all cc date fs tickers = Ok dfs -> tg_Ticker <$> dfs = tickers.
Proof.
  revert dfs. induction tickers as [|ticker tickers IH]; intros dfs; simpl.
  - by intros [= <-].
  - destruct (read_one cc date fs ticker) as [f|e] eqn:E; simpl; [|done].
    destruct (read_all cc date fs tickers) as [l|e]; simpl; [|done].
    intros [= <-]. rewrite fmap_cons, (IH l) by done. f_equal.
    unfold read_one in E. destruct (read_csv fs _) as [t|]; simpl in E; [|done].
    destruct (csv_Date t); simpl in E; [|done]. by inversion E.
Qed.

Lemma read_all_read_one tickers dfs f :
  read_all cc date fs tickers = Ok dfs -> f ∈ dfs ->
  tg_Ticker f ∈ tickers /\ read_one cc date fs (tg_Ticker f) = Ok f.
Proof.
  revert dfs. induction tickers as [|ticker tickers IH]; intros dfs; simpl.
  - intros [= <-] Hin. by apply elem_of_nil in Hin.
  - destruct (read_one cc date fs ticker) as [f0|e] eqn:E; simpl; [|done].
    destruct (read_all cc date fs tickers) as [l|e]; simpl; [|done].
    intros [= <-] [->|Hin]%elem_of_cons.
    + assert (tg_Ticker f0 = ticker) as Ht.
      { unfold read_one in E. destruct (read_csv fs _) as [t|]; simpl in E; [|done].
        destruct (csv_Date t); simpl in E; [|done]. by inversion E. }
      rewrite Ht. split; [left | done].
    + destruct (IH l eq_refl Hin) as [Hin' Hr]. split; [by right | done].
Qed.

Lemma read_one_dates ticker f :
  read_one cc date fs ticker = Ok f ->
  exists t, fs !! extract_path cc date ticker = Some t /\ csv_Date t = Some (tg_Date f).
Proof.
  unfold read_one, read_csv. destruct (fs !! extract_path cc date ticker) as [t|]; [|done].
  intros H. exists t. split; [done|].
  destruct (csv_Date t) as [dates|] eqn:Ed.
  - simpl in H. rewrite Ed in H. simpl in H. by inversion H.
  - destruct (csv_Ticker t), (csv_columns t); simpl in H; rewrite ?Ed in H;
      simpl in H; by inversion H.
Qed.

Lemma concat_set_index_index dfs df :
  concat_set_index dfs = Ok df -> index df = stacked_index dfs.
Proof. unfold concat_set_index. destruct dfs; [done|]. by intros [= <-]. Qed.

Lemma NoDup_stacked_index tickers dfs :
  NoDup tickers -> one_row_per_date cc date fs tickers ->
  read_all cc date fs tickers = Ok dfs -> NoDup (stacked_index dfs).
Proof.
  intros Hnd Hdates Hread. unfold stacked_index. apply NoDup_bind.
  - intros f1 f2 k Hf1 Hf2 (d1 & -> & _)%list_elem_of_fmap (d2 & [= _ Ht] & _)%list_elem_of_fmap.
    destruct (read_all_read_one _ _ _ Hread Hf1) as [_ H1].
    destruct (read_all_read_one _ _ _ Hread Hf2) as [_ H2].
    rewrite Ht in H1. rewrite H1 in H2. by injection H2.
  - intros f Hf. destruct (read_all_read_one _ _ _ Hread Hf) as [Hin Hone].
    destruct (read_one_dates _ _ Hone) as (t & Hfile & Hd).
    unfold one_row_per_date in Hdates. rewrite Forall_forall in Hdates.
    specialize (Hdates _ Hin). rewrite Hfile, Hd in Hdates.
    apply NoDup_fmap_2; [|done]. intros d1 d2 [= ->]. done.
  - apply (NoDup_fmap_1 tg_Ticker). by rewrite (read_all_tickers _ _ Hread).
Qed.

End read_facts.

(** ** The operations leave the index alone *)

Ltac bind_Ok H :=
  repeat match type of H with
         | (?m ≫= _) = Ok _ =>
             let E := fresh "E" in
             destruct m eqn:E; simpl in H; [|discriminate H]
         end.

Section index_facts.
Implicit Types (d : DataFrame).

Lemma clean_index d (d' : DataFrame) : _clean d = Ok d' -> index d' = index d.
Proof. rewrite clean_Ok. by intros [= <-]. Qed.

Lemma add_daily_return_index d (d' : DataFrame) :
  _add_daily_return d = Ok d' -> index d' = index d.
Proof. unfold _add_daily_return. intros H. bind_Ok H. by injection H as <-. Qed.

Lemma add_rolling_average_index window d (d' : DataFrame) :
  _add_rolling_average window d = Ok d' -> index d' = index d.
Proof. unfold _add_rolling_average. intros H. bind_Ok H. by injection H as <-. Qed.

Lemma add_ema_index span d (d' : DataFrame) : _add_ema span d = Ok d' -> index d' = index d.
Proof. unfold _add_ema. intros H. bind_Ok H. by injection H as <-. Qed.

Lemma add_time_series_analysis_index window span d (d' : DataFrame) :
  _add_time_series_analysis window span d = Ok d' -> index d' = index d.
Proof.
  unfold _add_time_series_analysis. cbv zeta. intros H. bind_Ok H. by injection H as <-.
Qed.

Lemma transform_index (self : Self) (fs fs' : gmap string CsvTable) d :
  transform self fs = Ok (d, fs') -> index d = index (df self).
Proof.
  unfold transform. intros H. bind_Ok H. injection H as <- _.
  rewrite (add_time_series_analysis_index _ _ _ _ E3), (add_ema_index _ _ _ E2),
    (add_rolling_average_index _ _ _ E1), (add_daily_return_index _ _ E0).
  by apply clean_index.
Qed.

End index_facts.

(** ** Uniqueness of the labels *)

Lemma fixture_panel_read :
  _read_and_concatenate fixture_cc ["AAPL"; "MSFT"] fixture_date fixture_fs
  = Ok fixture_panel.
Proof. vm_compute. reflexivity. Qed.

(** C7, as stated, fails: nothing in [_read_and_concatenate] removes or
    rejects a repeated (Date, Ticker) label. *)
Lemma panel_repeated_label :
  exists df : DataFrame,
    _read_and_concatenate fixture_cc ["AAPL"] fixture_date repeated_day_fs = Ok df /\
    index df = [(1%Z, "AAPL"); (1%Z, "AAPL")] /\
    ~ NoDup (index df).
Proof.
  eexists. split; [vm_compute; reflexivity|]. split; [reflexivity|].
  simpl. intros [Hin _]%NoDup_cons. apply Hin. left.
Qed.

(** C7, amended. When the tickers are distinct and every raw file has at
    most one row per Date, the panel returned by [_read_and_concatenate] has
    at most one row per (Date, Ticker) label; [_clean], [_add_daily_return],
    [_add_rolling_average], [_add_ema] and [_add_time_series_analysis] return
    a frame with the index they were given, so [transform] returns a frame
    with the same, distinct, labels. *)
Theorem panel_labels_unique_and_preserved (cc : CommonConfig) (tickers : list string)
    (date : string) (fs : gmap string CsvTable) (panel : DataFrame) :
  NoDup tickers ->
  one_row_per_date cc date fs tickers ->
  _read_and_concatenate cc tickers date fs = Ok panel ->
  NoDup (index panel) /\
  (forall d d' : DataFrame,
     _clean d = Ok d' \/
     _add_daily_return d = Ok d' \/
     (exists window, _add_rolling_average window d = Ok d') \/
     (exists span, _add_ema span d = Ok d') \/
     (exists window span, _add_time_series_analysis window span d = Ok d') ->
     index d' = index d) /\
  (forall (cfg : Config) (fs0 fs' : gmap string CsvTable) (d : DataFrame),
     transform {| common_config := cc; config := cfg; tickers := tickers;
                  extraction_date_str := date; df := panel |} fs0 = Ok (d, fs') ->
     index d = index panel /\ NoDup (index d)).
Proof.
  intros Hnd Hdates Hread.
  assert (NoDup (index panel)) as Hpanel.
  { rewrite read_and_concatenate_unfold in Hread.
    destruct (read_all cc date fs tickers) as [dfs|] eqn:E; simpl in Hread; [|done].
    rewrite (concat_set_index_index _ _ Hread).
    by apply (NoDup_stacked_index cc date fs tickers). }
  split; [done|]. split.
  - intros d d' [H|[H|[[w H]|[[s H]|(w & s & H)]]]].
    + by apply clean_index.
    + by apply add_daily_return_index.
    + by apply (add_rolling_average_index w).
    + by apply (add_ema_index s).
    + by apply (add_time_series_analysis_index w s).
  - intros cfg fs0 fs' d H. apply transform_index in H. simpl in H.
    split; [done|]. by rewrite H.
Qed.

Lemma panel_labels_unique_and_preserved_witness :
  NoDup (index fixture_panel) /\
  (forall d d' : DataFrame,
     _clean d = Ok d' \/
     _add_daily_return d = Ok d' \/
     (exists window, _add_rolling_average window d = Ok d') \/
     (exists span, _add_ema span d = Ok d') \/
     (exists window span, _add_time_series_analysis window span d = Ok d') ->
     index d' = index d) /\
  (forall (cfg : Config) (fs0 fs' : gmap string CsvTable) (d : DataFrame),
     transform {| common_config := fixture_cc; config := cfg;
                  tickers := ["AAPL"; "MSFT"];
                  extraction_date_str := fixture_date; df := fixture_panel |} fs0
     = Ok (d, fs') ->
     index d = index fixture_panel /\ NoDup (index d)).
Proof.
  apply (panel_labels_unique_and_preserved fixture_cc ["AAPL"; "MSFT"] fixture_date
           fixture_fs fixture_panel).
  - apply (bool_decide_unpack _). vm_compute. exact I.
  - unfold one_row_per_date.
    repeat (apply Forall_cons; split); try apply Forall_nil;
      vm_compute; apply (bool_decide_unpack _); vm_compute; exact I.
  - vm_compute. reflexivity.
Defined.

(** ** [transform] and the consolidated file *)

Section transform_facts.

(** Whatever [transform] returns, the file it wrote holds the columns of the
    returned frame and neither of the two index levels. *)
Lemma transform_writes_columns_only (self : Self) (fs fs' : gmap string CsvTable)
    (d : DataFrame) :
  transform self fs = Ok (d, fs') ->
  fs' !! transform_path (common_config self) (extraction_date_str self)
  = Some {| csv_Date := None; csv_Ticker := None; csv_columns := columns d |}.
Proof.
  unfold transform. intros H. bind_Ok H. injection H as <- <-.
  unfold _save_to_csv, to_csv_no_index, transform_path. cbv zeta.
  apply lookup_insert_eq.
Qed.

End transform_facts.

(** C9, on the partition of the unit tests. [transform] returns, and the
    consolidated file it writes under the transform phase holds the six raw
    value columns, DailyReturn, RollAvg2Days, EMA2 and Crossover, but neither
    a Date nor a Ticker column: the frame is indexed by (Date, Ticker) and
    is written with [index=False].  The loader returns that table as it
    is. *)
Theorem consolidated_file_lacks_date_and_ticker :
  exists (d : DataFrame) (fs' : gmap string CsvTable) (file : CsvTable),
    init ["AAPL"; "MSFT"] fixture_date fixture_config fixture_cc fixture_fs
    = Ok fixture_self /\
    transform fixture_self fixture_fs = Ok (d, fs') /\
    fs' !! "/tmp/transform/2023_01_01/transformed_data.csv" = Some file /\
    csv_Date file = None /\
    csv_Ticker file = None /\
    (csv_columns file).*1
    = ["Open"; "High"; "Low"; "Close"; "Adj Close"; "Volume";
       "DailyReturn"; "RollAvg2Days"; "EMA2"; "Crossover"] /\
    StockDataLoader.load fixture_cc fixture_date fs' = Ok file.
Proof.
  destruct (transform fixture_self fixture_fs) as [[d fs']|e] eqn:E;
    [|by vm_compute in E].
  exists d, fs', {| csv_Date := None; csv_Ticker := None; csv_columns := columns d |}.
  pose proof (transform_writes_columns_only _ _ _ _ E) as Hfile.
  assert (column_names d
          = ["Open"; "High"; "Low"; "Close"; "Adj Close"; "Volume";
             "DailyReturn"; "RollAvg2Days"; "EMA2"; "Crossover"]) as Hnames.
  { vm_compute in E. by injection E as <- _. }
  split; [vm_compute; reflexivity|].
  split; [done|].
  split; [exact Hfile|].
  split; [done|]. split; [done|]. split; [exact Hnames|].
  unfold StockDataLoader.load, StockDataLoader._read, read_csv. cbv zeta.
  change (_get_path fixture_cc "transform" +:+ "/" +:+ fixture_date)
    with "/tmp/transform/2023_01_01".
  change ("/tmp/transform/2023_01_01" +:+ "/" +:+ StockDataLoader.SOURCE_FILE_NAME +:+ ".csv")
    with "/tmp/transform/2023_01_01/transformed_data.csv".
  change (transform_path _ _) with "/tmp/transform/2023_01_01/transformed_data.csv" in Hfile.
  rewrite Hfile. simpl.
  unfold column_names in Hnames. by destruct (columns d).
Qed.

(** ** An all-empty partition *)

(** C6, on a partition whose two raw files have no row. The panel has no
    row, and [transform] returns it with the derived columns added, all
    empty, after writing it to the consolidated file: nothing is raised. *)
Theorem transform_returns_on_empty_partition :
  exists (self : Self) (d : DataFrame) (fs' : gmap string CsvTable),
    init ["AAPL"; "MSFT"] fixture_date fixture_config fixture_cc empty_fs = Ok self /\
    index (df self) = [] /\
    transform self empty_fs = Ok (d, fs') /\
    index d = [] /\
    Forall (fun cv : string * list cell => cv.2 = []) (columns d) /\
    fs' !! "/tmp/transform/2023_01_01/transformed_data.csv"
    = Some {| csv_Date := None; csv_Ticker := None; csv_columns := columns d |}.
Proof.
  eexists _, _, _.
  split; [vm_compute; reflexivity|].
  split; [reflexivity|].
  split; [vm_compute; reflexivity|].
  split; [reflexivity|].
  split; [repeat constructor|].
  vm_compute. reflexivity.
Qed.

(** ** Group-wise transformations keep frame order *)

Section groupby_transform_facts.
Variable f : list cell -> list cell.
Hypothesis f_length : forall l, length (f l) = length l.
Implicit Types (idx : list label) (vals : list cell) (t : string).

(** A column is determined by its values group by group. *)
Lemma group_rows_ext idx (c1 c2 : list cell) :
  length c1 = length idx -> length c2 = length idx ->
  (forall t, (group_rows t idx c1).*2 = (group_rows t idx c2).*2) ->
  c1 = c2.
Proof.
  revert c1 c2. induction idx as [|k idx IH]; intros [|a c1] [|b c2] H1 H2 Hg;
    simpl in *; try done.
  assert (forall t, (group_rows t idx c1).*2 = (group_rows t idx c2).*2
                    /\ (k.2 = t -> a = b)) as Hg'.
  { intros t. specialize (Hg t). unfold group_rows in *. simpl in Hg.
    rewrite !filter_cons in Hg.
    change (ticker_is t (k, a)) with (k.2 = t) in Hg.
    change (ticker_is t (k, b)) with (k.2 = t) in Hg.
    destruct (decide (k.2 = t)); [|done].
    rewrite !fmap_cons in Hg. simpl in Hg. by injection Hg as -> ->. }
  f_equal.
  - by apply (Hg' k.2).
  - apply IH; [lia | lia |]. intros t. apply Hg'.
Qed.

(** Values of the rows of ticker [t] when row [i] of [idx] receives
    [h (ticker of the row) (rank of the row in its group)], the ranks being
    counted after the rows of a prefix [p]. *)
Lemma group_rows_imap_rank (h : string -> nat -> cell) t (p idx : list label) :
  (group_rows t idx
     (imap (fun i (k : label) => h k.2 (rank_in_group (p ++ idx) (length p + i) k.2))
           idx)).*2
  = h t <$> seq (length (group_labels t p)) (length (group_labels t idx)).
Proof.
  revert p. induction idx as [|k idx IH]; intros p; [done|].
  rewrite imap_cons.
  assert (imap ((fun i (k0 : label) =>
                   h k0.2 (rank_in_group (p ++ k :: idx) (length p + i) k0.2)) ∘ S) idx
          = imap (fun i (k0 : label) =>
                    h k0.2 (rank_in_group ((p ++ [k]) ++ idx) (length (p ++ [k]) + i) k0.2))
                 idx) as ->.
  { apply imap_ext. intros i k0 _. simpl.
    rewrite <- app_assoc, length_app. simpl. do 2 f_equal. lia. }
  specialize (IH (p ++ [k])).
  unfold group_rows in *. cbn [zip_with]. rewrite filter_cons.
  change (ticker_is t (k, ?x)) with (k.2 = t).
  assert (length (group_labels t (p ++ [k]))
          = length (group_labels t p) + (if decide (k.2 = t) then 1 else 0)) as Hp.
  { unfold group_labels. rewrite filter_app, length_app, filter_cons, filter_nil.
    by destruct (decide (k.2 = t)). }
  assert (group_labels t (k :: idx)
          = if decide (k.2 = t) then k :: group_labels t idx else group_labels t idx) as Hk.
  { unfold group_labels. by rewrite filter_cons. }
  rewrite Hk, Hp in *. clear Hk Hp.
  destruct (decide (k.2 = t)) as [Hk|Hne].
  - rewrite fmap_cons, IH. cbn [snd length seq fmap list_fmap]. f_equal.
    + rewrite <- Hk at 1. f_equal.
      unfold rank_in_group. rewrite Nat.add_0_r, take_app_length.
      unfold group_labels. by rewrite Hk.
    + by rewrite Nat.add_1_r.
  - rewrite IH. by rewrite Nat.add_0_r.
Qed.

Lemma groupby_transform_group t idx vals :
  length vals = length idx ->
  (group_rows t idx (groupby_transform f idx vals)).*2
  = f ((group_rows t idx vals).*2).
Proof.
  intros Hlen. unfold groupby_transform.
  pose proof (group_rows_imap_rank
                (fun t' j => default NaN (f ((group_rows t' idx vals).*2) !! j)) t [] idx)
    as H.
  simpl in H. rewrite H. clear H.
  apply list_eq. intros j. rewrite list_lookup_fmap.
  assert (length (f (group_rows t idx vals).*2) = length (group_labels t idx)) as Hl.
  { rewrite f_length, length_fmap. apply length_group_rows. lia. }
  destruct (decide (j < length (group_labels t idx))) as [Hj|Hj].
  - rewrite lookup_seq_lt by done. simpl.
    destruct (lookup_lt_is_Some_2 (f (group_rows t idx vals).*2) j) as [x Hx]; [lia|].
    by rewrite Hx.
  - rewrite lookup_seq_ge by lia. simpl. symmetry. apply lookup_ge_None. lia.
Qed.

Lemma length_groupby_transform idx vals :
  length (groupby_transform f idx vals) = length idx.
Proof. unfold groupby_transform. apply length_imap. Qed.

(** With distinct labels, the positional result of a group-wise
    transformation is the label-aligned result of the same aggregation. *)
Lemma groupby_transform_realigned idx vals :
  NoDup idx -> length vals = length idx ->
  groupby_transform f idx vals = realigned f idx vals.
Proof.
  intros Hnd Hlen. apply (group_rows_ext idx).
  - apply length_groupby_transform.
  - apply length_realigned.
  - intros t. rewrite groupby_transform_group by done.
    by rewrite realigned_group.
Qed.

End groupby_transform_facts.

Lemma length_pct_change (l : list cell) : length (pct_change l) = length l.
Proof.
  unfold pct_change. rewrite length_zip_with. simpl. rewrite length_ffill. lia.
Qed.

(** ** Frame order and Date order *)

Section order_facts.

Lemma isort_Sorted_id {A : Type} (leb : A -> A -> bool) (l : list A) :
  Sorted (fun a b => leb a b = true) l -> isort leb l = l.
Proof.
  induction l as [|x l IH]; [done|]. intros Hs.
  apply Sorted_inv in Hs as [Hs Hhd]. simpl. rewrite IH by done.
  destruct Hhd as [|y l Hxy]; simpl; [done|]. by rewrite Hxy.
Qed.

Lemma Sorted_fmap_inv {A B : Type} (R : B -> B -> Prop) (g : A -> B) (l : list A) :
  Sorted R (g <$> l) -> Sorted (fun a b => R (g a) (g b)) l.
Proof.
  induction l as [|x l IH]; [constructor|].
  rewrite fmap_cons. intros [Hs Hhd]%Sorted_inv. constructor; [by apply IH|].
  destruct l as [|y l]; [constructor|].
  rewrite fmap_cons in Hhd. apply HdRel_inv in Hhd. by constructor.
Qed.

Lemma group_rows_date_sorted (idx : list label) (vals : list cell) (t : string) :
  length vals = length idx -> ascending_within_groups idx ->
  Sorted (fun r1 r2 => date_leb r1 r2 = true) (group_rows t idx vals).
Proof.
  intros Hlen Hasc. specialize (Hasc t).
  rewrite <- (group_rows_fst t idx vals) in Hasc by lia.
  apply Sorted_fmap_inv in Hasc.
  induction Hasc as [|r l Hs IH Hhd]; constructor; [done|].
  destruct Hhd as [|r' l Hle]; constructor. unfold date_leb. by apply Z.leb_le.
Qed.

Lemma date_order_value_ascending (agg : list cell -> list cell) (idx : list label)
    (vals : list cell) (k : label) :
  length vals = length idx -> ascending_within_groups idx ->
  date_order_value agg idx vals k = frame_order_value agg idx vals k.
Proof.
  intros Hlen Hasc. unfold date_order_value, frame_order_value.
  by rewrite isort_Sorted_id by by apply group_rows_date_sorted.
Qed.

Lemma assoc_zip_fmap_elem (F : label -> cell) (idx : list label) (k : label) :
  k ∈ idx -> assoc k (zip idx (F <$> idx)) = Some (F k).
Proof.
  induction idx as [|k0 idx IH]; intros Hin; [by apply elem_of_nil in Hin|].
  rewrite fmap_cons. simpl. destruct (decide (k0 = k)) as [->|Hne]; [done|].
  apply IH. apply elem_of_cons in Hin as [?|?]; congruence.
Qed.

Lemma realigned_value (agg : list cell -> list cell) (idx : list label)
    (vals : list cell) (k : label) :
  (forall l, length (agg l) = length l) ->
  length vals = length idx -> NoDup idx -> k ∈ idx ->
  assoc k (zip idx (realigned agg idx vals)) = Some (frame_order_value agg idx vals k).
Proof.
  intros Hagg Hlen Hnd Hin. unfold realigned. rewrite assoc_zip_fmap_elem by done.
  f_equal. unfold frame_order_value, group_value.
  rewrite groupby_window_pieces, assoc_pieces; [done | done | done | apply NoDup_group_keys |].
  apply elem_of_group_keys, list_elem_of_fmap. by exists k.
Qed.

Lemma value_at_setitem (d : DataFrame) (col : string) (v : list cell) (k : label) :
  value_at (setitem d col v) col k = assoc k (zip (index d) v).
Proof. unfold value_at, setitem. simpl. by rewrite assoc_set_eq. Qed.

Lemma add_daily_return_Ok (d : DataFrame) (close : list cell) :
  NoDup (index d) -> getitem d "Close" = Ok close -> length close = length (index d) ->
  _add_daily_return d = Ok (setitem d "DailyReturn" (realigned pct_change (index d) close)).
Proof.
  intros Hnd Hclose Hlen. unfold _add_daily_return. rewrite Hclose. simpl.
  by rewrite groupby_transform_realigned by (done || apply length_pct_change).
Qed.

End order_facts.

(** C4, as stated, fails: the rows of AAPL come with Date 2 before Date 1;
    on the row of Date 2 the rolling average is 1 (its own Close) where the
    Date-ordered window gives 2, the EMA is 1 where Date order gives 5/3,
    and the daily return is missing where Date order gives a value. *)
Lemma windowed_features_ignore_dates :
  exists (d1 d2 d3 : DataFrame) (roll roll' ema ema' ret' : Q),
    _add_daily_return unsorted_frame = Ok d1 /\
    _add_rolling_average 2 unsorted_frame = Ok d2 /\
    _add_ema 2 unsorted_frame = Ok d3 /\
    value_at d2 (ROLL_AVG_DAYS_COLUMN_TEMPLATE 2) (2%Z, "AAPL") = Some (Some roll) /\
    date_order_value (roll_mean 2 1) (index unsorted_frame) [Some 1%Q; Some 3%Q]
      (2%Z, "AAPL") = Some roll' /\
    ~ (roll == roll')%Q /\
    value_at d3 (EMA_COLUMN_TEMPLATE 2) (2%Z, "AAPL") = Some (Some ema) /\
    date_order_value (ewm (com_of_span 2) false false 1) (index unsorted_frame)
      [Some 1%Q; Some 3%Q] (2%Z, "AAPL") = Some ema' /\
    ~ (ema == ema')%Q /\
    value_at d1 "DailyReturn" (2%Z, "AAPL") = Some NaN /\
    date_order_value pct_change (index unsorted_frame) [Some 1%Q; Some 3%Q]
      (2%Z, "AAPL") = Some ret'.
Proof.
  eexists _, _, _, _, _, _, _, _.
  split; [vm_compute; reflexivity|].
  split; [vm_compute; reflexivity|].
  split; [vm_compute; reflexivity|].
  split; [vm_compute; reflexivity|].
  split; [vm_compute; reflexivity|].
  split; [intros H; vm_compute in H; discriminate|].
  split; [vm_compute; reflexivity|].
  split; [vm_compute; reflexivity|].
  split; [intros H; vm_compute in H; discriminate|].
  split; [vm_compute; reflexivity|].
  vm_compute. reflexivity.
Qed.

(** C4, amended. On a frame with distinct labels, the daily return, the
    rolling average and the EMA of a row are computed over the rows of its
    ticker in the order they have in the frame; no operation sorts by Date.
    When every ticker's rows appear by ascending Date, this is the value the
    Date-ordered computation gives. *)
Theorem windowed_features_follow_frame_order (window span : nat) (df : DataFrame)
    (close : list cell) :
  1 <= window ->
  1 <= span ->
  NoDup (index df) ->
  getitem df "Close" = Ok close ->
  length close = length (index df) ->
  exists d1 d2 d3 : DataFrame,
    _add_daily_return df = Ok d1 /\
    _add_rolling_average window df = Ok d2 /\
    _add_ema span df = Ok d3 /\
    forall k : label, k ∈ index df ->
      let roll_col := ROLL_AVG_DAYS_COLUMN_TEMPLATE window in
      let ema_col := EMA_COLUMN_TEMPLATE span in
      let ema_agg := ewm (com_of_span span) false false 1 in
      value_at d1 "DailyReturn" k
      = Some (frame_order_value pct_change (index df) close k) /\
      value_at d2 roll_col k
      = Some (frame_order_value (roll_mean window 1) (index df) close k) /\
      value_at d3 ema_col k
      = Some (frame_order_value ema_agg (index df) close k) /\
      (ascending_within_groups (index df) ->
       value_at d1 "DailyReturn" k
       = Some (date_order_value pct_change (index df) close k) /\
       value_at d2 roll_col k
       = Some (date_order_value (roll_mean window 1) (index df) close k) /\
       value_at d3 ema_col k
       = Some (date_order_value ema_agg (index df) close k)).
Proof.
  intros Hw Hs Hnd Hclose Hlen. eexists _, _, _.
  split; [by apply add_daily_return_Ok|].
  split; [by apply add_rolling_average_Ok|].
  split; [by apply add_ema_Ok|].
  intros k Hk roll_col ema_col ema_agg.
  rewrite !value_at_setitem.
  assert (assoc k (zip (index df) (realigned pct_change (index df) close))
          = Some (frame_order_value pct_change (index df) close k)) as H1
    by (apply realigned_value; done || apply length_pct_change).
  assert (assoc k (zip (index df) (realigned (roll_mean window 1) (index df) close))
          = Some (frame_order_value (roll_mean window 1) (index df) close k)) as H2
    by (apply realigned_value; done || (intros l; apply length_roll_mean)).
  assert (assoc k (zip (index df) (realigned ema_agg (index df) close))
          = Some (frame_order_value ema_agg (index df) close k)) as H3
    by (apply realigned_value; done || (intros l; apply length_ewm)).
  split; [done|]. split; [done|]. split; [done|].
  intros Hasc. by rewrite !date_order_value_ascending.
Qed.

Lemma windowed_features_follow_frame_order_witness :
  exists d1 d2 d3 : DataFrame,
    _add_daily_return two_ticker_frame = Ok d1 /\
    _add_rolling_average 2 two_ticker_frame = Ok d2 /\
    _add_ema 2 two_ticker_frame = Ok d3 /\
    forall k : label, k ∈ index two_ticker_frame ->
      let close := [Some 10%Q; Some 20%Q; Some 1%Q; NaN; Some 4%Q] in
      let roll_col := ROLL_AVG_DAYS_COLUMN_TEMPLATE 2 in
      let ema_col := EMA_COLUMN_TEMPLATE 2 in
      let ema_agg := ewm (com_of_span 2) false false 1 in
      value_at d1 "DailyReturn" k
      = Some (frame_order_value pct_change (index two_ticker_frame) close k) /\
      value_at d2 roll_col k
      = Some (frame_order_value (roll_mean 2 1) (index two_ticker_frame) close k) /\
      value_at d3 ema_col k
      = Some (frame_order_value ema_agg (index two_ticker_frame) close k) /\
      (ascending_within_groups (index two_ticker_frame) ->
       value_at d1 "DailyReturn" k
       = Some (date_order_value pct_change (index two_ticker_frame) close k) /\
       value_at d2 roll_col k
       = Some (date_order_value (roll_mean 2 1) (index two_ticker_frame) close k) /\
       value_at d3 ema_col k
       = Some (date_order_value ema_agg (index two_ticker_frame) close k)).
Proof.
  apply (windowed_features_follow_frame_order 2 2 two_ticker_frame).
  - lia.
  - lia.
  - apply (bool_decide_unpack _). vm_compute. exact I.
  - reflexivity.
  - reflexivity.
Defined.

(** The frame of the example does list every ticker by ascending Date. *)
Lemma two_ticker_frame_ascending : ascending_within_groups (index two_ticker_frame).
Proof.
  intros t. unfold group_labels. simpl. rewrite !filter_cons, filter_nil. simpl.
  destruct (decide ("MSFT" = t)), (decide ("AAPL" = t)); simplify_eq;
    repeat (constructor; simpl; try lia).
Qed.

(** * Further properties of the code *)

(** ** [_add_daily_return] *)

Section pct_change_facts.
Implicit Types (c : list cell).

Lemma ffill_valid c j (p : Q) : c !! j = Some (Some p) -> ffill c !! j = Some (Some p).
Proof.
  intros Hj. apply (ffill_from_carry _ _ j j); [lia | by eapply lookup_lt_Some | done |].
  intros k Hk. lia.
Qed.

Lemma pct_change_first c : c <> [] -> pct_change c !! 0 = Some NaN.
Proof.
  intros Hc. unfold pct_change. rewrite lookup_zip_with. simpl.
  destruct c as [|x c]; [done|]. simpl. by destruct x.
Qed.

Lemma pct_change_next c j (p x : Q) :
  c !! j = Some (Some p) -> c !! S j = Some (Some x) -> ~ (p == 0)%Q ->
  exists q : Q, pct_change c !! S j = Some (Some q) /\ (q == (x - p) / p)%Q.
Proof.
  intros Hp Hx Hnz. unfold pct_change. rewrite lookup_zip_with. simpl.
  rewrite (ffill_valid _ _ _ Hx), (ffill_valid _ _ _ Hp). simpl.
  destruct (Qeq_bool p 0) eqn:E; [by apply Qeq_bool_eq in E|].
  eexists. split; [done|]. by field.
Qed.

End pct_change_facts.

(** X1. Whatever the labels, [_add_daily_return] returns on a frame that has
    an aligned Close column. Within every ticker group, in frame order, the
    first DailyReturn is missing, and on a row whose Close [x] and whose
    predecessor's Close [p] are both valid, with [p] not zero, it is
    [(x - p) / p]. *)
Theorem daily_return_per_group (df : DataFrame) (close : list cell) :
  getitem df "Close" = Ok close ->
  length close = length (index df) ->
  exists (df' : DataFrame) (ret : list cell),
    _add_daily_return df = Ok df' /\
    index df' = index df /\
    getitem df' "DailyReturn" = Ok ret /\
    length ret = length (index df) /\
    forall t : string,
      let c := (group_rows t (index df) close).*2 in
      let r := (group_rows t (index df) ret).*2 in
      length r = length c /\
      (c <> [] -> r !! 0 = Some NaN) /\
      forall (j : nat) (p x : Q),
        c !! j = Some (Some p) ->
        c !! S j = Some (Some x) ->
        ~ (p == 0)%Q ->
        exists q : Q, r !! S j = Some (Some q) /\ (q == (x - p) / p)%Q.
Proof.
  intros Hclose Hlen. eexists _, _.
  split; [unfold _add_daily_return; by rewrite Hclose|].
  split; [done|].
  split; [apply getitem_setitem_eq|].
  split; [apply length_groupby_transform|].
  intros t c r. subst c r.
  rewrite (groupby_transform_group pct_change length_pct_change) by done.
  split; [apply length_pct_change|].
  split; [apply pct_change_first|].
  intros j p x. apply pct_change_next.
Qed.

Lemma daily_return_per_group_witness :
  exists (df' : DataFrame) (ret : list cell),
    _add_daily_return two_ticker_frame = Ok df' /\
    index df' = index two_ticker_frame /\
    getitem df' "DailyReturn" = Ok ret /\
    length ret = length (index two_ticker_frame) /\
    forall t : string,
      let c := (group_rows t (index two_ticker_frame)
                  [Some 10%Q; Some 20%Q; Some 1%Q; NaN; Some 4%Q]).*2 in
      let r := (group_rows t (index two_ticker_frame) ret).*2 in
      length r = length c /\
      (c <> [] -> r !! 0 = Some NaN) /\
      forall (j : nat) (p x : Q),
        c !! j = Some (Some p) ->
        c !! S j = Some (Some x) ->
        ~ (p == 0)%Q ->
        exists q : Q, r !! S j = Some (Some q) /\ (q == (x - p) / p)%Q.
Proof.
  apply (daily_return_per_group two_ticker_frame); reflexivity.
Defined.

(** ** Missing columns and rejected parameters *)

Section missing_columns.
Implicit Types (df : DataFrame) (col : string).

Lemma getitem_missing df col : col ∉ column_names df -> getitem df col = Raise (KeyError col).
Proof. intros Hc. unfold getitem. by rewrite (proj2 (assoc_None col (columns df)) Hc). Qed.

Lemma clean_column_names df (d : DataFrame) :
  _clean df = Ok d -> column_names d = column_names df.
Proof. rewrite clean_Ok. intros [= <-]. apply clean_columns_names. Qed.

Lemma column_names_setitem df col (v : list cell) :
  column_names (setitem df col v)
  = if decide (col ∈ column_names df) then column_names df
    else column_names df ++ [col].
Proof.
  unfold column_names, setitem. simpl. case_decide.
  - by apply assoc_set_names_in.
  - by apply assoc_set_names_notin.
Qed.

Lemma elem_of_column_names_setitem df col col' (v : list cell) :
  col' ∈ column_names (setitem df col v) <-> col' = col \/ col' ∈ column_names df.
Proof.
  rewrite column_names_setitem. case_decide as Hin.
  - split; [by right | intros [->|?]; done].
  - rewrite elem_of_app, list_elem_of_singleton. tauto.
Qed.

End missing_columns.



(** X3. [_add_time_series_analysis] depends on the two windowing steps: on a
    frame without the rolling-average column it raises KeyError of that
    label, and on a frame that has it but not the EMA column it raises
    KeyError of the EMA label. A frame that only went through [_clean] and
    [_add_daily_return] has neither, unless the raw data brought them. *)
Theorem crossover_needs_both_columns (roll_window span : nat) (df : DataFrame) :
  (ROLL_AVG_DAYS_COLUMN_TEMPLATE roll_window ∉ column_names df ->
   _add_time_series_analysis roll_window span df
   = Raise (KeyError (ROLL_AVG_DAYS_COLUMN_TEMPLATE roll_window))) /\
  (ROLL_AVG_DAYS_COLUMN_TEMPLATE roll_window ∈ column_names df ->
   EMA_COLUMN_TEMPLATE span ∉ column_names df ->
   _add_time_series_analysis roll_window span df
   = Raise (KeyError (EMA_COLUMN_TEMPLATE span))) /\
  (forall d1 d2 : DataFrame,
     _clean df = Ok d1 -> _add_daily_return d1 = Ok d2 ->
     ROLL_AVG_DAYS_COLUMN_TEMPLATE roll_window ∉ column_names df ->
     _add_time_series_analysis roll_window span d2
     = Raise (KeyError (ROLL_AVG_DAYS_COLUMN_TEMPLATE roll_window))).
Proof.
  split; [|split].
  - intros Hr. unfold _add_time_series_analysis. cbv zeta.
    by rewrite (getitem_missing df (ROLL_AVG_DAYS_COLUMN_TEMPLATE roll_window)).
  - intros Hr He. unfold _add_time_series_analysis. cbv zeta.
    destruct (getitem_name _ _ Hr) as [v ->]. simpl.
    by rewrite (getitem_missing df (EMA_COLUMN_TEMPLATE span)).
  - intros d1 d2 Hclean Hret Hr. unfold _add_time_series_analysis. cbv zeta.
    rewrite (getitem_missing d2 (ROLL_AVG_DAYS_COLUMN_TEMPLATE roll_window));
      [reflexivity|].
    unfold _add_daily_return in Hret. bind_Ok Hret. injection Hret as <-.
    rewrite elem_of_column_names_setitem, (clean_column_names _ _ Hclean).
    intros [Heq|Hin]; [|done].
    apply (f_equal (String.get 0)) in Heq. by vm_compute in Heq.
Qed.


(** ** The steps of [transform] on a well-formed panel *)

Ltac first_char_ne :=
  let H := fresh in
  intros H; apply (f_equal (String.get 0)) in H; by vm_compute in H.

Section transform_steps.
Implicit Types (d : DataFrame) (c : list cell).

Lemma bind_Ok_l {A B : Type} (a : A) (f : A -> result B) : (Ok a ≫= f) = f a.
Proof. done. Qed.

Lemma bind_Raise_l {A B : Type} (e : exn) (f : A -> result B) : (Raise e ≫= f) = Raise e.
Proof. done. Qed.

Lemma clean_cleaned d : _clean d = Ok (cleaned d).
Proof. apply clean_Ok. Qed.

Lemma getitem_cleaned d col (v : list cell) :
  getitem d col = Ok v -> getitem (cleaned d) col = Ok (clean_value col v).
Proof.
  intros Hget. unfold getitem in *. simpl. rewrite assoc_clean_columns.
  destruct (assoc col (columns d)) as [v'|] eqn:E; [|done].
  injection Hget as ->. rewrite decide_True; [done|].
  apply assoc_Some_elem in E. apply list_elem_of_fmap. by eexists (_, _).
Qed.

Lemma getitem_cleaned_Close d c :
  getitem d "Close" = Ok c -> getitem (cleaned d) "Close" = Ok (ffill c).
Proof.
  intros H. rewrite (getitem_cleaned _ _ _ H). unfold clean_value.
  by rewrite decide_True by (unfold price_columns; set_solver).
Qed.

Lemma column_names_cleaned d : column_names (cleaned d) = column_names d.
Proof. apply clean_columns_names. Qed.

Lemma length_clean_value col (v : list cell) : length (clean_value col v) = length v.
Proof.
  unfold clean_value. repeat case_decide; by rewrite ?length_ffill, ?length_bfill.
Qed.

Lemma add_daily_return_setitem d c :
  getitem d "Close" = Ok c ->
  _add_daily_return d
  = Ok (setitem d "DailyReturn" (groupby_transform pct_change (index d) c)).
Proof. intros H. unfold _add_daily_return. by rewrite H. Qed.

Lemma Close_ne_roll window : ROLL_AVG_DAYS_COLUMN_TEMPLATE window <> "Close".
Proof. first_char_ne. Qed.

Lemma Close_ne_ema span : EMA_COLUMN_TEMPLATE span <> "Close".
Proof. first_char_ne. Qed.

Lemma DailyReturn_ne_roll window : ROLL_AVG_DAYS_COLUMN_TEMPLATE window <> "DailyReturn".
Proof. first_char_ne. Qed.

Lemma DailyReturn_ne_ema span : EMA_COLUMN_TEMPLATE span <> "DailyReturn".
Proof. first_char_ne. Qed.

(** The four feature steps, one after the other. *)
Lemma feature_steps_Ok (window span : nat) d c :
  1 <= window -> 1 <= span -> NoDup (index d) ->
  getitem d "Close" = Ok c -> length c = length (index d) ->
  (d2 ← _add_daily_return d;
   d3 ← _add_rolling_average window d2;
   d4 ← _add_ema span d3;
   _add_time_series_analysis window span d4)
  = Ok (with_features window span d c).
Proof.
  intros Hw Hs Hnd Hc Hlen.
  rewrite (add_daily_return_setitem _ _ Hc), bind_Ok_l.
  rewrite (add_rolling_average_Ok window _ c); [|done|done| |done].
  2: { by rewrite getitem_setitem_ne. }
  rewrite bind_Ok_l.
  rewrite (add_ema_Ok span _ c); [|done|done| |done].
  2: { rewrite getitem_setitem_ne by apply Close_ne_roll. by rewrite getitem_setitem_ne. }
  rewrite bind_Ok_l.
  erewrite add_time_series_analysis_Ok; [reflexivity| |].
  - rewrite getitem_setitem_ne by (apply not_eq_sym, roll_col_ne_ema_col).
    apply getitem_setitem_eq.
  - apply getitem_setitem_eq.
Qed.

Lemma transform_Ok (self : Self) (fs : gmap string CsvTable) c :
  1 <= roll_avg_days (config self) -> 1 <= ema_span (config self) ->
  NoDup (index (df self)) ->
  getitem (df self) "Close" = Ok c -> length c = length (index (df self)) ->
  let d := with_features (roll_avg_days (config self)) (ema_span (config self))
             (cleaned (df self)) (ffill c) in
  transform self fs
  = Ok (d, <[transform_path (common_config self) (extraction_date_str self)
             := consolidated d]> fs).
Proof.
  intros Hw Hs Hnd Hc Hlen d. unfold transform.
  rewrite clean_cleaned, bind_Ok_l.
  pose proof (feature_steps_Ok (roll_avg_days (config self)) (ema_span (config self))
                (cleaned (df self)) (ffill c) Hw Hs Hnd
                (getitem_cleaned_Close _ _ Hc)) as Hsteps.
  rewrite length_ffill in Hsteps. specialize (Hsteps Hlen).
  destruct (_add_daily_return (cleaned (df self))) as [d2|e]; [|done].
  cbn [mbind result_bind] in Hsteps |- *.
  destruct (_add_rolling_average _ d2) as [d3|e]; [|done].
  cbn [mbind result_bind] in Hsteps |- *.
  destruct (_add_ema _ d3) as [d4|e]; [|done].
  cbn [mbind result_bind] in Hsteps |- *.
  rewrite Hsteps. reflexivity.
Qed.

End transform_steps.

(** ** Rejected parameters *)

(** X4. [transform] rejects a window of zero rows and a span of zero: on a
    panel with an aligned Close column, [roll_avg_days = 0] makes the rolling
    step raise a ValueError (min_periods 1 exceeds the window) whatever the
    span, and, when the labels are distinct and the window is at least one,
    [ema_span = 0] makes the EMA step raise a ValueError. In both cases
    nothing is written. *)
Theorem transform_rejects_zero_window_or_span (cc : CommonConfig)
    (tickers : list string) (date : string) (panel : DataFrame)
    (fs : gmap string CsvTable) (close : list cell) :
  getitem panel "Close" = Ok close ->
  length close = length (index panel) ->
  (forall span : nat,
     exists msg,
       transform {| common_config := cc;
                    config := {| roll_avg_days := 0; ema_span := span |};
                    tickers := tickers; extraction_date_str := date;
                    df := panel |} fs
       = Raise (ValueError msg)) /\
  (NoDup (index panel) ->
   forall window : nat, 1 <= window ->
     exists msg,
       transform {| common_config := cc;
                    config := {| roll_avg_days := window; ema_span := 0 |};
                    tickers := tickers; extraction_date_str := date;
                    df := panel |} fs
       = Raise (ValueError msg)).
Proof.
  intros Hclose Hlen.
  pose proof (getitem_cleaned_Close _ _ Hclose) as Hc1.
  assert (length (ffill close) = length (index (cleaned panel))) as Hl1.
  { by rewrite length_ffill. }
  assert (getitem (setitem (cleaned panel) "DailyReturn"
                     (groupby_transform pct_change (index (cleaned panel)) (ffill close)))
            "Close" = Ok (ffill close)) as Hc2.
  { by rewrite getitem_setitem_ne. }
  split.
  - intros span. eexists. unfold transform. cbn [df config roll_avg_days ema_span].
    rewrite clean_cleaned, bind_Ok_l.
    rewrite (add_daily_return_setitem _ _ Hc1), bind_Ok_l.
    unfold _add_rolling_average. rewrite Hc2, bind_Ok_l.
    reflexivity.
  - intros Hnd window Hw. eexists. unfold transform.
    cbn [df config roll_avg_days ema_span].
    rewrite clean_cleaned, bind_Ok_l.
    rewrite (add_daily_return_setitem _ _ Hc1), bind_Ok_l.
    rewrite (add_rolling_average_Ok window _ (ffill close)); [|done|done|done|done].
    rewrite bind_Ok_l.
    unfold _add_ema. rewrite getitem_setitem_ne by apply Close_ne_roll.
    rewrite Hc2, bind_Ok_l. reflexivity.
Qed.

Lemma transform_rejects_zero_window_or_span_witness :
  (forall span : nat,
     exists msg,
       transform {| common_config := fixture_cc;
                    config := {| roll_avg_days := 0; ema_span := span |};
                    tickers := ["AAPL"; "MSFT"]; extraction_date_str := fixture_date;
                    df := fixture_panel |} fixture_fs
       = Raise (ValueError msg)) /\
  (NoDup (index fixture_panel) ->
   forall window : nat, 1 <= window ->
     exists msg,
       transform {| common_config := fixture_cc;
                    config := {| roll_avg_days := window; ema_span := 0 |};
                    tickers := ["AAPL"; "MSFT"]; extraction_date_str := fixture_date;
                    df := fixture_panel |} fixture_fs
       = Raise (ValueError msg)).
Proof.
  apply (transform_rejects_zero_window_or_span fixture_cc ["AAPL"; "MSFT"]
           fixture_date fixture_panel fixture_fs
           [Some 1; Some 2; Some 3; Some 4; Some 5;
            Some 1; Some 2; Some 3; Some 4; Some 5]%Q); reflexivity.
Defined.

(** ** The frame [transform] returns *)

Section transform_shape.
Implicit Types (d : DataFrame) (c v : list cell) (col : string).

Lemma Forall_assoc_set (P : string * list cell -> Prop) col v
    (l : list (string * list cell)) :
  Forall P l -> P (col, v) -> Forall P (assoc_set col v l).
Proof.
  intros Hl Hv. induction l as [|x l IH]; simpl.
  - by constructor.
  - destruct x as [k' v']. apply Forall_cons in Hl as [Hx Hl]. case_decide; constructor; auto.
Qed.

Lemma aligned_setitem d col v :
  aligned d -> length v = length (index d) -> aligned (setitem d col v).
Proof. intros Hd Hv. unfold aligned, setitem. simpl. by apply Forall_assoc_set. Qed.

Lemma Forall_clean_at (n : nat) col (cols : list (string * list cell)) :
  Forall (fun cv => length cv.2 = n) cols ->
  Forall (fun cv => length cv.2 = n) (clean_at col cols).
Proof.
  intros H. unfold clean_at. destruct (assoc col cols) as [v|] eqn:E; [|done].
  apply Forall_assoc_set; [done|]. simpl. rewrite length_clean_value.
  apply assoc_Some_elem in E. rewrite Forall_forall in H. by apply (H (col, v)).
Qed.

Lemma aligned_cleaned d : aligned d -> aligned (cleaned d).
Proof.
  unfold aligned, cleaned. simpl. generalize (column_names d) (length (index d)).
  intros names n. unfold clean_columns. revert names.
  generalize (columns d). intros cols names. revert cols.
  induction names as [|a names IH]; intros cols H; simpl; [done|].
  apply IH. by apply Forall_clean_at.
Qed.

Lemma index_with_features window span d c : index (with_features window span d c) = index d.
Proof. done. Qed.

Lemma aligned_with_features window span d c :
  aligned d -> length c = length (index d) -> aligned (with_features window span d c).
Proof.
  intros Hd Hc. unfold with_features.
  assert (length (realigned (roll_mean window 1) (index d) c) = length (index d)) as Hr.
  { apply length_realigned. }
  assert (length (realigned (ewm (com_of_span span) false false 1) (index d) c)
          = length (index d)) as He.
  { apply length_realigned. }
  repeat apply aligned_setitem; try done.
  - by rewrite length_groupby_transform.
  - rewrite length_fmap, length_zip_with. simpl.
    change (index (setitem ?x _ _)) with (index x). simpl. lia.
Qed.

Lemma getitem_with_features_other window span d c col :
  col ∉ derived_columns window span ->
  getitem (with_features window span d c) col = getitem d col.
Proof.
  intros Hnot. unfold with_features, derived_columns in *.
  rewrite !not_elem_of_cons in Hnot. destruct Hnot as (H1 & H2 & H3 & H4 & _).
  by rewrite !getitem_setitem_ne.
Qed.

Lemma elem_of_column_names_with_features window span d c col :
  col ∈ column_names (with_features window span d c)
  <-> col ∈ column_names d \/ col ∈ derived_columns window span.
Proof.
  unfold with_features, derived_columns.
  rewrite !elem_of_column_names_setitem, !elem_of_cons, elem_of_nil. tauto.
Qed.

Lemma derived_columns_NoDup window span : NoDup (derived_columns window span).
Proof.
  unfold derived_columns. repeat constructor; rewrite ?not_elem_of_cons.
  - split_and!; [apply not_eq_sym, DailyReturn_ne_roll
                |apply not_eq_sym, DailyReturn_ne_ema|done|apply not_elem_of_nil].
  - split_and!; [apply roll_col_ne_ema_col|apply not_eq_sym, roll_col_ne_Crossover
                |apply not_elem_of_nil].
  - split_and!; [apply not_eq_sym, ema_col_ne_Crossover|apply not_elem_of_nil].
  - apply not_elem_of_nil.
Qed.

Lemma column_names_with_features_fresh window span d c :
  Forall (fun col => col ∉ column_names d) (derived_columns window span) ->
  column_names (with_features window span d c)
  = column_names d ++ derived_columns window span.
Proof.
  intros Hfresh. unfold with_features, derived_columns in *.
  apply Forall_cons in Hfresh as [H1 Hfresh]. apply Forall_cons in Hfresh as [H2 Hfresh].
  apply Forall_cons in Hfresh as [H3 Hfresh]. apply Forall_cons in Hfresh as [H4 _].
  pose proof (DailyReturn_ne_roll window). pose proof (DailyReturn_ne_ema span).
  pose proof (roll_col_ne_ema_col window span).
  pose proof (roll_col_ne_Crossover window). pose proof (ema_col_ne_Crossover span).
  rewrite (column_names_setitem _ "Crossover"), decide_False.
  2: { rewrite !elem_of_column_names_setitem. intros [?|[?|[?|?]]]; congruence. }
  rewrite (column_names_setitem _ (EMA_COLUMN_TEMPLATE span)), decide_False.
  2: { rewrite !elem_of_column_names_setitem. intros [?|[?|?]]; congruence. }
  rewrite (column_names_setitem _ (ROLL_AVG_DAYS_COLUMN_TEMPLATE window)), decide_False.
  2: { rewrite !elem_of_column_names_setitem. intros [?|?]; congruence. }
  rewrite (column_names_setitem _ "DailyReturn"), decide_False by done.
  by rewrite <- !app_assoc.
Qed.

End transform_shape.

(** X5. On a well-formed panel (distinct row labels, every column aligned
    with the index, a Close column) and with a window and a span of at least
    one, [transform] returns.  The frame it returns has the index of the
    panel, is aligned again, has the columns of the panel and the four
    derived ones DailyReturn, RollAvg<window>Days, EMA<span> and Crossover
    (appended in that order when the panel has none of them), and holds in
    every other column the cleaned values of the panel. *)
Theorem transform_result_shape (self : Self) (fs : gmap string CsvTable) :
  let window := roll_avg_days (config self) in
  let span := ema_span (config self) in
  1 <= window -> 1 <= span ->
  NoDup (index (df self)) -> aligned (df self) ->
  "Close" ∈ column_names (df self) ->
  exists (d : DataFrame) (fs' : gmap string CsvTable),
    transform self fs = Ok (d, fs') /\
    index d = index (df self) /\
    aligned d /\
    (forall col, col ∈ column_names d
                 <-> col ∈ column_names (df self) \/ col ∈ derived_columns window span) /\
    (Forall (fun col => col ∉ column_names (df self)) (derived_columns window span) ->
     column_names d = column_names (df self) ++ derived_columns window span) /\
    (forall col v, col ∉ derived_columns window span ->
                   getitem (df self) col = Ok v ->
                   getitem d col = Ok (clean_value col v)).
Proof.
  intros window span Hw Hs Hnd Hal Hclose.
  destruct (getitem_name _ _ Hclose) as [c Hc].
  pose proof (aligned_getitem _ _ _ Hal Hc) as Hlen.
  eexists _, _. split; [by apply (transform_Ok self fs c)|].
  fold window span. split_and!.
  - done.
  - apply aligned_with_features; [by apply aligned_cleaned|]. by rewrite length_ffill.
  - intros col. rewrite elem_of_column_names_with_features.
    by rewrite column_names_cleaned.
  - intros Hfresh. rewrite column_names_with_features_fresh.
    + by rewrite column_names_cleaned.
    + by rewrite column_names_cleaned.
  - intros col v Hnot Hv. rewrite getitem_with_features_other by done.
    by apply getitem_cleaned.
Qed.

Lemma transform_result_shape_witness :
  exists (d : DataFrame) (fs' : gmap string CsvTable),
    transform fixture_self fixture_fs = Ok (d, fs') /\
    index d = index fixture_panel /\
    aligned d /\
    (forall col, col ∈ column_names d
                 <-> col ∈ column_names fixture_panel \/ col ∈ derived_columns 2 2) /\
    (Forall (fun col => col ∉ column_names fixture_panel) (derived_columns 2 2) ->
     column_names d = column_names fixture_panel ++ derived_columns 2 2) /\
    (forall col v, col ∉ derived_columns 2 2 ->
                   getitem fixture_panel col = Ok v ->
                   getitem d col = Ok (clean_value col v)).
Proof.
  apply (transform_result_shape fixture_self fixture_fs).
  - simpl. lia.
  - simpl. lia.
  - apply (bool_decide_unpack _). vm_compute. exact I.
  - unfold aligned. apply (bool_decide_unpack _). vm_compute. exact I.
  - apply (bool_decide_unpack _). vm_compute. exact I.
Defined.

(** ** Paths *)

Section path_facts.
Implicit Types (a b s : string).

Lemma string_length_app a b : String.length (a +:+ b) = String.length a + String.length b.
Proof. induction a as [|x a IH]; simpl; [done|]. by rewrite IH. Qed.


Lemma string_app_nonempty a b : b <> EmptyString -> a +:+ b <> EmptyString.
Proof.
  intros Hb H. apply (f_equal String.length) in H. rewrite string_length_app in H.
  destruct b; [done|]. simpl in H. lia.
Qed.

Lemma endswith_sep_app a b : b <> EmptyString -> endswith_sep (a +:+ b) = endswith_sep b.
Proof.
  intros Hb. unfold endswith_sep. rewrite string_length_app.
  destruct b as [|x b]; [done|]. cbn [String.length].
  replace (String.length a + S (String.length b) - 1)
    with (String.length b + String.length a) by lia.
  rewrite <- String.append_correct2.
  by replace (S (String.length b) - 1) with (String.length b) by lia.
Qed.

Lemma path_join_plain a b :
  a <> EmptyString -> endswith_sep a = false -> String.prefix "/" b = false ->
  path_join a b = a +:+ "/" +:+ b.
Proof.
  intros Ha He Hb. unfold path_join. rewrite Hb, He.
  by rewrite bool_decide_eq_false_2.
Qed.



Lemma plain_key_spec s :
  plain_key s = true
  <-> s <> EmptyString /\ String.prefix "/" s = false /\ endswith_sep s = false.
Proof.
  unfold plain_key. rewrite !andb_true_iff, !negb_true_iff, bool_decide_eq_false.
  tauto.
Qed.

(** For a plain key the transformer writes where the loader reads. *)
Lemma transform_path_plain (cc : CommonConfig) (date : string) :
  plain_key date = true -> transform_path cc date = load_path cc date.
Proof.
  intros (Hne & Hpre & Hend)%plain_key_spec.
  unfold transform_path, load_path, _get_path. cbn [foldl].
  rewrite (path_join_plain _ date); [|by apply string_app_nonempty| |done].
  2: { by rewrite endswith_sep_app. }
  rewrite path_join_plain; [done| | |done].
  - by apply string_app_nonempty.
  - rewrite endswith_sep_app by done. by rewrite endswith_sep_app.
Qed.


End path_facts.

(** ** What [transform] does to the files *)

Section store_facts.
Context (cc : CommonConfig).





Lemma transform_store (self : Self) (fs fs' : gmap string CsvTable) (d : DataFrame) :
  transform self fs = Ok (d, fs') ->
  fs' = <[transform_path (common_config self) (extraction_date_str self)
          := consolidated d]> fs.
Proof. unfold transform. intros H. bind_Ok H. by injection H as <- <-. Qed.

Lemma transform_has_Crossover (self : Self) (fs fs' : gmap string CsvTable)
    (d : DataFrame) :
  transform self fs = Ok (d, fs') -> "Crossover" ∈ column_names d.
Proof.
  unfold transform. intros H. bind_Ok H. injection H as <- _.
  unfold _add_time_series_analysis in E3. cbv zeta in E3. bind_Ok E3.
  injection E3 as <-. apply elem_of_column_names_setitem. by left.
Qed.

Lemma read_csv_consolidated (fs : gmap string CsvTable) (p : string) (d : DataFrame) :
  columns d <> [] -> read_csv (<[p := consolidated d]> fs) p = Ok (consolidated d).
Proof.
  intros Hne. unfold read_csv. rewrite lookup_insert_eq. simpl.
  by destruct (columns d).
Qed.

End store_facts.



(** X7. Round trip of the last two stages: when the partition key is plain,
    the loader, run on the store a returning [transform] leaves, reads back
    the consolidated file; the table it returns has exactly the columns of
    the frame [transform] returned, Crossover among them, and neither a Date
    nor a Ticker column. *)
Theorem transform_then_load (self : Self) (fs fs' : gmap string CsvTable)
    (d : DataFrame) :
  plain_key (extraction_date_str self) = true ->
  transform self fs = Ok (d, fs') ->
  exists t : CsvTable,
    StockDataLoader.load (common_config self) (extraction_date_str self) fs' = Ok t /\
    csv_columns t = columns d /\
    "Crossover" ∈ (csv_columns t).*1 /\
    csv_Date t = None /\ csv_Ticker t = None.
Proof.
  intros Hplain Ht. exists (consolidated d).
  pose proof (transform_has_Crossover _ _ _ _ Ht) as Hco.
  split; [|done].
  rewrite (transform_store _ _ _ _ Ht).
  unfold StockDataLoader.load, StockDataLoader._read. cbv zeta.
  change (read_csv ?s _) with (read_csv s (load_path (common_config self)
                                             (extraction_date_str self))).
  rewrite (transform_path_plain _ _ Hplain). apply read_csv_consolidated.
  intros Hnil. unfold column_names in Hco. rewrite Hnil in Hco.
  by apply elem_of_nil in Hco.
Qed.

Lemma transform_then_load_witness :
  exists (d : DataFrame) (fs' : gmap string CsvTable),
    plain_key (extraction_date_str fixture_self) = true /\
    transform fixture_self fixture_fs = Ok (d, fs') /\
    exists t : CsvTable,
      StockDataLoader.load (common_config fixture_self)
        (extraction_date_str fixture_self) fs' = Ok t /\
      csv_columns t = columns d /\
      "Crossover" ∈ (csv_columns t).*1 /\
      csv_Date t = None /\ csv_Ticker t = None.
Proof.
  destruct (transform fixture_self fixture_fs) as [[d fs']|e] eqn:E.
  - exists d, fs'. split; [reflexivity|]. split; [done|].
    exact (transform_then_load fixture_self fixture_fs fs' d eq_refl E).
  - exfalso. vm_compute in E. discriminate E.
Defined.



(** ** Running [transform] again *)

Section transform_again.
Implicit Types (d : DataFrame) (c v : list cell) (col : string).

Lemma setitem_same d col v : getitem d col = Ok v -> setitem d col v = d.
Proof.
  unfold getitem, setitem. destruct (assoc col (columns d)) as [v'|] eqn:E; [|done].
  intros [= ->]. rewrite (assoc_set_id _ _ _ E). by destruct d.
Qed.

Lemma clean_columns_fixed (names : list string) (cols : list (string * list cell)) :
  (forall col v, assoc col cols = Some v -> clean_value col v = v) ->
  clean_columns names cols = cols.
Proof.
  intros Hfix. unfold clean_columns.
  induction names as [|a names IH]; [done|]. cbn [foldl].
  assert (clean_at a cols = cols) as ->; [|done].
  unfold clean_at. destruct (assoc a cols) as [v|] eqn:E; [|done].
  rewrite (Hfix _ _ E). by apply assoc_set_id.
Qed.

Lemma cleaned_fixed d :
  (forall col v, getitem d col = Ok v -> clean_value col v = v) -> cleaned d = d.
Proof.
  intros Hfix. unfold cleaned. rewrite clean_columns_fixed; [by destruct d|].
  intros col v E. apply Hfix. unfold getitem. by rewrite E.
Qed.

Lemma getitem_cleaned_inv d col v :
  getitem (cleaned d) col = Ok v ->
  exists v0, getitem d col = Ok v0 /\ v = clean_value col v0.
Proof.
  unfold getitem. simpl. rewrite assoc_clean_columns.
  destruct (assoc col (columns d)) as [v0|] eqn:E.
  - case_decide as Hin; simpl.
    + intros [= <-]. by exists v0.
    + exfalso. apply Hin. apply assoc_Some_elem in E.
      apply list_elem_of_fmap. by exists (col, v0).
  - by case_decide.
Qed.

Lemma derived_not_cleaned window span col v :
  col ∈ derived_columns window span -> clean_value col v = v.
Proof.
  intros Hin. unfold clean_value.
  rewrite decide_False; [rewrite decide_False; [done|]|].
  - intros ->. unfold derived_columns in Hin.
    rewrite !elem_of_cons, elem_of_nil in Hin.
    destruct Hin as [H|[H|[H|[H|[]]]]]; revert H; first [done | first_char_ne].
  - unfold price_columns, derived_columns in *.
    rewrite !elem_of_cons, elem_of_nil in Hin.
    rewrite !elem_of_cons, elem_of_nil.
    destruct Hin as [->|[->|[->|[->|[]]]]];
      intros [H|[H|[H|[H|[H|[]]]]]]; revert H; first [done | first_char_ne].
Qed.

Lemma cleaned_with_features window span d c :
  cleaned (with_features window span (cleaned d) c)
  = with_features window span (cleaned d) c.
Proof.
  apply cleaned_fixed. intros col v Hv.
  destruct (decide (col ∈ derived_columns window span)) as [Hin|Hnot].
  - by apply (derived_not_cleaned window span).
  - rewrite getitem_with_features_other in Hv by done.
    apply getitem_cleaned_inv in Hv as (v0 & _ & ->). apply clean_value_idemp.
Qed.

Lemma with_features_idemp window span d c :
  with_features window span (with_features window span d c) c
  = with_features window span d c.
Proof.
  set (D := with_features window span d c).
  unfold with_features at 1. change (index D) with (index d).
  rewrite (setitem_same D "DailyReturn").
  2: { unfold D, with_features.
       rewrite 3!getitem_setitem_ne by first [done | first_char_ne].
       apply getitem_setitem_eq. }
  rewrite (setitem_same D (ROLL_AVG_DAYS_COLUMN_TEMPLATE window)).
  2: { unfold D, with_features.
       rewrite 2!getitem_setitem_ne by first [done | first_char_ne].
       apply getitem_setitem_eq. }
  rewrite (setitem_same D (EMA_COLUMN_TEMPLATE span)).
  2: { unfold D, with_features.
       rewrite getitem_setitem_ne by first [done | first_char_ne].
       apply getitem_setitem_eq. }
  apply setitem_same. unfold D, with_features. apply getitem_setitem_eq.
Qed.

Lemma Close_not_derived window span : "Close" ∉ derived_columns window span.
Proof.
  unfold derived_columns. rewrite !not_elem_of_cons. split_and!.
  - done.
  - apply not_eq_sym, Close_ne_roll.
  - apply not_eq_sym, Close_ne_ema.
  - done.
  - apply not_elem_of_nil.
Qed.

End transform_again.

(** X9. [transform] can be run again on the same object: on a well-formed
    panel, with a window and a span of at least one, the first run returns a
    frame and leaves it in [self.df]; a second run on that frame returns the
    same frame, column for column, and leaves the store as the first run left
    it. *)
Theorem transform_again_same_result (self : Self) (fs : gmap string CsvTable) :
  1 <= roll_avg_days (config self) -> 1 <= ema_span (config self) ->
  NoDup (index (df self)) -> aligned (df self) ->
  "Close" ∈ column_names (df self) ->
  exists (d : DataFrame) (fs' : gmap string CsvTable),
    transform self fs = Ok (d, fs') /\
    transform (with_df self d) fs' = Ok (d, fs').
Proof.
  intros Hw Hs Hnd Hal Hclose.
  destruct (getitem_name _ _ Hclose) as [c Hc].
  pose proof (aligned_getitem _ _ _ Hal Hc) as Hlen.
  eexists _, _. split; [by apply (transform_Ok self fs c)|].
  set (window := roll_avg_days (config self)). set (span := ema_span (config self)).
  set (D := with_features window span (cleaned (df self)) (ffill c)).
  assert (getitem D "Close" = Ok (ffill c)) as HcD.
  { unfold D. rewrite getitem_with_features_other by apply Close_not_derived.
    by apply getitem_cleaned_Close. }
  assert (with_features window span (cleaned D) (ffill c) = D) as HD.
  { unfold D. by rewrite cleaned_with_features, with_features_idemp. }
  rewrite (transform_Ok (with_df self D) _ (ffill c)); try done.
  - cbn [with_df df config common_config extraction_date_str]. fold window span.
    rewrite ffill_idemp, HD. by rewrite insert_insert_eq.
  - by rewrite length_ffill.
Qed.

Lemma transform_again_same_result_witness :
  exists (d : DataFrame) (fs' : gmap string CsvTable),
    transform fixture_self fixture_fs = Ok (d, fs') /\
    transform (with_df fixture_self d) fs' = Ok (d, fs').
Proof.
  apply (transform_again_same_result fixture_self fixture_fs).
  - simpl. lia.
  - simpl. lia.
  - apply (bool_decide_unpack _). vm_compute. exact I.
  - unfold aligned. apply (bool_decide_unpack _). vm_compute. exact I.
  - apply (bool_decide_unpack _). vm_compute. exact I.
Defined.

(** ** Partitions that cannot be read *)

Section read_errors.
Context (cc : CommonConfig) (date : string) (fs : gmap string CsvTable).

Lemma readable_read_one ticker :
  readable cc date fs ticker -> exists f, read_one cc date fs ticker = Ok f.
Proof.
  intros (t & dates & Hfile & Hd). unfold read_one, read_csv. rewrite Hfile, Hd.
  cbn [mbind result_bind]. rewrite Hd. by eexists.
Qed.

Lemma read_all_first_failure (before after : list string) (ticker : string) (e : exn) :
  Forall (readable cc date fs) before ->
  read_one cc date fs ticker = Raise e ->
  read_all cc date fs (before ++ ticker :: after) = Raise e.
Proof.
  intros Hbefore Hfail. induction Hbefore as [|t before Ht _ IH]; cbn [app read_all].
  - by rewrite Hfail.
  - destruct (readable_read_one _ Ht) as [f ->]. cbn [mbind result_bind].
    by rewrite IH.
Qed.

Lemma init_first_failure (config : Config) (before after : list string)
    (ticker : string) (e : exn) :
  Forall (readable cc date fs) before ->
  read_one cc date fs ticker = Raise e ->
  init (before ++ ticker :: after) date config cc fs = Raise e.
Proof.
  intros Hbefore Hfail. unfold init. rewrite read_and_concatenate_unfold.
  by rewrite (read_all_first_failure _ _ _ e).
Qed.

End read_errors.

(** X10. Building the transformer stops at the first ticker whose raw file
    cannot be used, whatever comes after it: when the files of the tickers
    before it are there with a Date column, a missing file raises
    FileNotFoundError for its path, an empty file raises EmptyDataError, and
    a file with columns but no Date column raises KeyError('Date').  With no
    ticker at all there is nothing to concatenate, which is a ValueError. *)
Theorem init_stops_at_first_unreadable_ticker (cc : CommonConfig) (date : string)
    (fs : gmap string CsvTable) (config : Config) (before after : list string)
    (ticker : string) :
  Forall (readable cc date fs) before ->
  let path := extract_path cc date ticker in
  let run := init (before ++ ticker :: after) date config cc fs in
  (fs !! path = None -> run = Raise (FileNotFoundError path)) /\
  (fs !! path = Some empty_file -> run = Raise EmptyDataError) /\
  (forall t : CsvTable,
     fs !! path = Some t -> csv_Date t = None -> csv_columns t <> [] ->
     run = Raise (KeyError "Date")) /\
  (exists msg, init [] date config cc fs = Raise (ValueError msg)).
Proof.
  intros Hbefore path run. unfold run. split_and!.
  - intros Hnone. apply init_first_failure; [done|].
    unfold read_one, read_csv. fold path. by rewrite Hnone.
  - intros Hempty. apply init_first_failure; [done|].
    unfold read_one, read_csv. fold path. by rewrite Hempty.
  - intros t Hfile Hd Hcols. apply init_first_failure; [done|].
    unfold read_one, read_csv. fold path. rewrite Hfile, Hd.
    destruct (csv_Ticker t), (csv_columns t); try done; cbn [mbind result_bind];
      by rewrite Hd.
  - by eexists.
Qed.

Lemma init_stops_at_first_unreadable_ticker_witness :
  Forall (readable fixture_cc fixture_date mixed_fs) ["AAPL"; "MSFT"] /\
  init (["AAPL"; "MSFT"] ++ "GOOG" :: ["IBM"]) fixture_date fixture_config fixture_cc
    mixed_fs
  = Raise (FileNotFoundError "/tmp/extract/2023_01_01/GOOG.csv") /\
  init (["AAPL"; "MSFT"] ++ "ORCL" :: ["GOOG"]) fixture_date fixture_config fixture_cc
    mixed_fs
  = Raise EmptyDataError /\
  init (["AAPL"; "MSFT"] ++ "IBM" :: ["GOOG"]) fixture_date fixture_config fixture_cc
    mixed_fs
  = Raise (KeyError "Date").
Proof.
  assert (Forall (readable fixture_cc fixture_date mixed_fs) ["AAPL"; "MSFT"]) as Hb.
  { repeat constructor; exists fixture_raw, [1; 2; 3; 4; 5]%Z; split; reflexivity. }
  split; [exact Hb|]. split_and!.
  - destruct (init_stops_at_first_unreadable_ticker fixture_cc fixture_date mixed_fs
                fixture_config ["AAPL"; "MSFT"] ["IBM"] "GOOG" Hb) as (H & _).
    exact (H eq_refl).
  - destruct (init_stops_at_first_unreadable_ticker fixture_cc fixture_date mixed_fs
                fixture_config ["AAPL"; "MSFT"] ["GOOG"] "ORCL" Hb) as (_ & H & _).
    exact (H eq_refl).
  - destruct (init_stops_at_first_unreadable_ticker fixture_cc fixture_date mixed_fs
                fixture_config ["AAPL"; "MSFT"] ["GOOG"] "IBM" Hb) as (_ & _ & H & _).
    apply (H undated_raw); [reflexivity|reflexivity|done].
Defined.
